(** * pyTopoComplexity: rugosity index

    A shallow embedding of [pytopocomplexity/pyrugosity.py] (class
    [RugosityIndex]) and the properties of its windowed surface-area
    estimator, of its two grid traversals and of the border invalidation,
    then of its handling of units and of the object through [analyze] and
    [export_result].

    Elevations, cell sizes and ratios are IEEE binary64 numbers, the type
    numpy calls [float64]; they are modelled by the primitive type [float],
    whose operations are the correctly rounded binary64 operations.  Arrays
    are lists: a flattened window is a [list float], a two-dimensional
    array is a list of rows.

    The program calls three libraries.  [np.hypot] is a parameter of the
    model.  [scipy.ndimage.generic_filter] and dask's [map_overlap] are
    modelled by what they compute: the windows they hand to the callback,
    the padding at the edges, the chunks and how their results are put
    together.  The progress bar is the state threaded through the
    sequential traversal.  Of rasterio the model keeps what the program
    reads from the dataset it opens and the record of what it writes. *)

From Stdlib Require Import Floats ZArith List Lia Bool Arith PeanoNat.
From Stdlib Require Uint63.
From Stdlib Require Ascii String.
Import ListNotations.
Import String.StringSyntax.
Delimit Scope string_scope with string.

Open Scope bool_scope.

(* ================================================================== *)
(** * Part I: the program                                              *)
(* ================================================================== *)

(** ** numpy scalars *)

Module np.

Definition sqrt (x : float) : float := PrimFloat.sqrt x.
Definition abs (x : float) : float := PrimFloat.abs x.
Definition isnan (x : float) : bool := PrimFloat.is_nan x.
Definition nan : float := PrimFloat.nan.

(** [float(k)] for a Python integer [k] of magnitude below [2^63] (a
    window size beyond that is never run); exact below [2^53]. *)
Definition float_of_int (k : Z) : float :=
  if (k <? 0)%Z then PrimFloat.opp (of_uint63 (Uint63.of_Z (- k)))
  else of_uint63 (Uint63.of_Z k).

(** [int(np.sqrt(n))] for a length [n]: the integer square root.  (The
    binary64 square root is correctly rounded; truncated, it is the integer
    square root of every [n] below [2^52].) *)
Definition int_sqrt (n : nat) : nat := Nat.sqrt n.

(** [x ** 2] in the compiled estimator: the rounded product [x * x]. *)
Definition square (x : float) : float := (x * x)%float.

(** [values[k]].  The compiled estimator reads without a bounds check;
    lemma [estimator_reads_in_range] shows that on a non-empty array every
    index it reads lies inside the array, so the value returned here
    outside the array is never used by a traversal. *)
Definition getitem (values : list float) (k : nat) : float :=
  nth k values nan.

End np.

(** ** Exceptions

    A computation either returns a value or raises. *)

Inductive exn :=
| WindowSizeError   (* ValueError: 'window_size' must be an odd integer >= 3. *)
| OverflowError     (* Python: (34, 'Numerical result out of range') *)
| ZeroDivisionError (* Python: float division by zero *)
| ChunkShapeError   (* dask: a chunk size that is not positive *)
| OverlapDepthError (* dask: the overlapping depth is larger than the array *)
| DtypeInferenceError (* dask: ValueError, dtype inference failed in map_blocks *).

Inductive result (A : Type) :=
| Ok (a : A)
| Raise (e : exn).
Arguments Ok {A} a.
Arguments Raise {A} e.

Definition bind {A B} (r : result A) (k : A -> result B) : result B :=
  match r with
  | Ok a => k a
  | Raise e => Raise e
  end.

Notation "x <- r ;; k" := (bind r (fun x => k))
  (at level 61, r at next level, right associativity).

(** The values of a list of computations, or the first exception. *)
Fixpoint collect {A} (l : list (result A)) : result (list A) :=
  match l with
  | [] => Ok []
  | r :: l' => a <- r ;; rest <- collect l' ;; Ok (a :: rest)
  end.

(** ** Python floats

    [rugosity_filter] is not compiled: its arithmetic is Python's, which
    raises where binary64 arithmetic returns an infinity or a NaN. *)

Module py.

(** [x ** 2]: [OverflowError] when the square of a finite [x] overflows.
    The value is taken to be the correctly rounded square; CPython asks
    the C library's [pow], which may differ from it in the last bit. *)
Definition pow2 (x : float) : result float :=
  if is_finite x && is_infinity (x * x)%float then Raise OverflowError
  else Ok (x * x)%float.

(** [a / b]: [ZeroDivisionError] when [b] is a zero. *)
Definition truediv (a b : float) : result float :=
  if is_zero b then Raise ZeroDivisionError else Ok (a / b)%float.

End py.

(** ** A reference [hypot]

    [np.hypot] is the platform's C [hypot]; the program does not fix its
    rounding.  All general results below therefore hold for an arbitrary
    function [hypot].  For evaluation on concrete inputs we use
    [hypot_ref], which follows C99 Annex F on the special values
    (an infinite argument gives [+inf] even against a NaN; otherwise a NaN
    propagates; [hypot(x, 0) = |x|]) and otherwise computes the root of the
    sum of squares, rescaled when the squares leave the binary64 range. *)

Definition fmax (x y : float) : float := if (x <? y)%float then y else x.
Definition fmin (x y : float) : float := if (x <? y)%float then x else y.

Definition hypot_ref (x y : float) : float :=
  if is_infinity x || is_infinity y then infinity
  else if is_nan x || is_nan y then nan
  else
    let ax := abs x in
    let ay := abs y in
    let big := fmax ax ay in
    let small := fmin ax ay in
    if is_zero small then big
    else
      let sq := (ax * ax + ay * ay)%float in
      if is_infinity sq || (sq <? 0x1p-960)%float then
        let r := (small / big)%float in
        (big * sqrt (1 + r * r))%float
      else sqrt sq.

Section Program.

(** The platform's [hypot], see above. *)
Variable hypot : float -> float -> float.

(** ** [RugosityIndex.compute_triangle_areas] *)

(** The body of the inner loop up to the guard: the three edges, the
    semi-perimeter and Heron's formula. *)
Definition heron_area (center vi vi1 cell_size : float) : float :=
  let corner_dist := (np.sqrt 2 * cell_size)%float in
  let orthogonal_edges := (hypot (center - vi) cell_size / 2)%float in
  let diagonal_edges := (hypot (center - vi) corner_dist / 2)%float in
  let adjacent_edges := (hypot (vi - vi1) cell_size / 2)%float in
  let s := ((orthogonal_edges + diagonal_edges + adjacent_edges) / 2)%float in
  np.sqrt (np.abs (s * (s - orthogonal_edges) * (s - diagonal_edges)
                     * (s - adjacent_edges)))%float.

(** [if np.isnan(area) or area <= 0: area = cell_size ** 2 / 2]. *)
Definition guard_area (cell_size area : float) : float :=
  if np.isnan area || (area <=? 0)%float
  then (np.square cell_size / 2)%float
  else area.

(** One iteration of the inner loop, for [i] and [j] in
    [range(window_size - 1)]: the new [total_surface_area]. *)
Definition loop_body (values : list float) (cell_size center : float)
           (window_size : nat) (total_surface_area : float) (i j : nat) : float :=
  let idx := i * window_size + j in
  let area := heron_area center (np.getitem values idx)
                         (np.getitem values (idx + 1)) cell_size in
  let area := guard_area cell_size area in
  (total_surface_area + area * 8)%float.

Definition compute_triangle_areas (values : list float) (cell_size : float) : float :=
  let window_size := np.int_sqrt (length values) in
  let center := np.getitem values (length values / 2) in
  fold_left
    (fun total_surface_area i =>
       fold_left
         (fun total_surface_area j =>
            loop_body values cell_size center window_size total_surface_area i j)
         (seq 0 (window_size - 1)) total_surface_area)
    (seq 0 (window_size - 1)) 0%float.

(** ** [rugosity_filter], the closure of [calculate_rugosity] *)

Definition rugosity_filter (window_size : Z) (cell_size : float)
           (values : list float) : result float :=
  let surface_area := compute_triangle_areas values cell_size in
  planar_area <- py.pow2 (np.float_of_int (window_size - 1) * cell_size)%float ;;
  py.truediv surface_area planar_area.

(** ** Two-dimensional arrays *)

(** A [numpy.ndarray] of shape [(R, C)]: [R] rows of [C] samples. *)
Definition grid := list (list float).

Definition nrows (x : grid) : nat := length x.
Definition ncols (x : grid) : nat := length (hd [] x).

Definition rect (R C : nat) (x : grid) : Prop :=
  length x = R /\ Forall (fun row => length row = C) x.

Definition get (x : grid) (i j : nat) : float := nth j (nth i x []) np.nan.

(** The slice [x[a : a + n]]; like a Python slice it stops at the end of
    the list. *)
Definition slice {A} (a n : nat) (x : list A) : list A := firstn n (skipn a x).

(** ** Callbacks

    A callback and the state it updates: [f a s] is the value returned, or
    the exception raised, and the state left behind.  [traverse] calls [f]
    on the elements of a list from left to right and stops at the first
    exception. *)
Fixpoint traverse {S A B} (f : A -> S -> result B * S) (l : list A) (s : S)
  : result (list B) * S :=
  match l with
  | [] => (Ok [], s)
  | a :: l' =>
      match f a s with
      | (Ok b, s1) =>
          match traverse f l' s1 with
          | (Ok bs, s2) => (Ok (b :: bs), s2)
          | (Raise e, s2) => (Raise e, s2)
          end
      | (Raise e, s1) => (Raise e, s1)
      end
  end.

(** ** [scipy.ndimage.generic_filter(input, function, size, mode='nearest')]

    The output has the shape of the input.  Its cell [(i, j)] is
    [function] applied to the [size * size] samples around [(i, j)], in
    row-major order, rows [i - size/2 .. i - size/2 + size - 1]; a sample
    outside the array is replaced by the nearest one inside (the edge
    value is repeated).  Cells are visited in row-major order; an
    exception raised by [function] ends the traversal. *)

Definition nearest (n k depth : nat) : nat := Nat.min (n - 1) (k - depth).

Definition window_nearest (input : grid) (size i j : nat) : list float :=
  flat_map
    (fun a => map (fun b => get input (nearest (nrows input) (i + a) (size / 2))
                                (nearest (ncols input) (j + b) (size / 2)))
                  (seq 0 size))
    (seq 0 size).

Definition generic_filter {S} (function : list float -> S -> result float * S)
           (size : nat) (input : grid) : S -> result grid * S :=
  traverse
    (fun i => traverse (fun j => function (window_nearest input size i j))
                       (seq 0 (ncols input)))
    (seq 0 (nrows input)).

(** ** [dask.array]: [from_array(Z, chunks)] and
       [map_overlap(func, depth, boundary='reflect')] *)

(** The sizes of the chunks along an axis of length [d] cut in blocks of
    [bd] (dask's [blockdims_from_blockshape]). *)
Definition blockdims (d bd : nat) : list nat :=
  if d =? 0 then [0]
  else repeat bd (d / bd) ++ (if d mod bd =? 0 then [] else [d mod bd]).

(** The chunks as (start, size) pairs. *)
Fixpoint blocks_from (start : nat) (dims : list nat) : list (nat * nat) :=
  match dims with
  | [] => []
  | h :: dims' => (start, h) :: blocks_from (start + h) dims'
  end.

(** dask's [reflect(x, axis, depth)]: [x[depth-1::-1]], [x],
    [x[-1:-depth-1:-1]] concatenated along the axis. *)
Definition reflect {A} (depth : nat) (x : list A) : list A :=
  rev (firstn depth x) ++ x ++ firstn depth (rev x).

(** dask's [boundaries]: axis 0, then axis 1. *)
Definition boundaries (depth : nat) (x : grid) : grid :=
  map (reflect depth) (reflect depth x).

(** dask's [trim_internal] on one block: [b[depth:-depth, depth:-depth]]. *)
Definition trim_internal (depth : nat) (b : grid) : grid :=
  map (fun row => slice depth (length row - depth - depth) row)
      (slice depth (length b - depth - depth) b).

(** The blocks of one row of chunks put side by side. *)
Definition hstack (h : nat) (bs : list grid) : grid :=
  map (fun k => concat (map (fun b => nth k b []) bs)) (seq 0 h).

(** [da.from_array(x, chunks).map_overlap(func, depth, boundary='reflect')
    .compute()].  The array is padded by reflection; every chunk is
    extended by [depth] samples of the padded array on each side, [func]
    is applied to it, the result is trimmed by [depth] and the trimmed
    blocks are put together; an exception raised by [func] on a block is
    raised by the computation.  dask refuses an array shorter than [depth]
    along an axis.  (Releases that do not rechunk also refuse a chunk
    shorter than [depth]; those that rechunk compute the value below.)

    Before any block is computed, [map_blocks] infers the dtype of the
    result: it calls [func] on [np.ones((1, 1))], and an exception raised
    by that call leaves [map_overlap] as a [ValueError] of dask's. *)
Definition map_overlap (func : grid -> result grid) (depth : nat) (chunks : nat * nat)
           (x : grid) : result grid :=
  let '(ch, cw) := chunks in
  if (ch =? 0) || (cw =? 0) then Raise ChunkShapeError
  else if (nrows x <? depth) || (ncols x <? depth) then Raise OverlapDepthError
  else
    match func [[1%float]] with
    | Raise _ => Raise DtypeInferenceError
    | Ok _ =>
        let padded := boundaries depth x in
        block_rows <-
          collect
            (map (fun '(r0, h) =>
                    blocks <-
                      collect
                        (map (fun '(c0, w) =>
                                b <- func (map (slice c0 (w + 2 * depth))
                                               (slice r0 (h + 2 * depth) padded)) ;;
                                Ok (trim_internal depth b))
                             (blocks_from 0 (blockdims (ncols x) cw))) ;;
                    Ok (hstack h blocks))
                 (blocks_from 0 (blockdims (nrows x) ch))) ;;
        Ok (concat block_rows)
    end.

(** ** [RugosityIndex]

    The attributes the computation reads: [window_size], set by
    [__init__], and the arguments [chunk_processing] and [chunksize] of
    [analyze], which stores them in the object before it calls
    [calculate_rugosity]. *)

Record RugosityIndex := {
  window_size : Z;
  chunk_processing : bool;
  chunksize : nat * nat
}.

(** [calculate_rugosity(self, Z, cell_size)].  The state is the count of
    the [tqdm] progress bar: [progress_filter] adds one to it before each
    window it evaluates. *)
Definition calculate_rugosity (self : RugosityIndex) (Z : grid) (cell_size : float)
           (pbar : nat) : result grid * nat :=
  if (window_size self mod 2 =? 0)%Z || (window_size self <? 3)%Z
  then (Raise WindowSizeError, pbar)
  else
    let rugosity_filter := rugosity_filter (window_size self) cell_size in
    let size := Z.to_nat (window_size self) in
    if chunk_processing self then
      (map_overlap
         (fun block =>
            fst (generic_filter (fun values (u : unit) => (rugosity_filter values, u))
                                size block tt))
         (Z.to_nat (window_size self / 2)) (chunksize self) Z,
       pbar)
    else
      let progress_filter values (pbar : nat) := (rugosity_filter values, S pbar) in
      generic_filter progress_filter size Z pbar.

(** ** [analyze], after the raster has been read

    [analyze] reads the elevation and the grid size from a raster file
    and converts feet to metres; the model starts from the converted
    array [Z] and [gridsize]. *)

(** [result[rows, cols] = np.nan] on the cells selected by [sel]. *)
Fixpoint set_nan_row (sel : nat -> bool) (j : nat) (row : list float) : list float :=
  match row with
  | [] => []
  | v :: row' => (if sel j then np.nan else v) :: set_nan_row sel (S j) row'
  end.

Fixpoint set_nan (sel : nat -> nat -> bool) (i : nat) (x : grid) : grid :=
  match x with
  | [] => []
  | row :: x' => set_nan_row (sel i) 0 row :: set_nan sel (S i) x'
  end.

Definition invalidate_fringe (fringeval : nat) (result : grid) : grid :=
  let r1 := set_nan (fun i _ => i <? fringeval) 0 result in           (* [:fringeval, :] *)
  let r2 := set_nan (fun _ j => j <? fringeval) 0 r1 in               (* [:, :fringeval] *)
  let r3 := set_nan (fun i _ => nrows r2 - fringeval <=? i) 0 r2 in   (* [-fringeval:, :] *)
  set_nan (fun _ j => ncols r3 - fringeval <=? j) 0 r3.               (* [:, -fringeval:] *)

Definition analyze (self : RugosityIndex) (Z : grid) (gridsize : float)
           (pbar : nat) : result grid * nat :=
  match calculate_rugosity self Z gridsize pbar with
  | (Ok result, pbar) =>
      let fringeval := Z.to_nat (window_size self / 2 + 1) in
      (Ok (invalidate_fringe fringeval result), pbar)
  | (Raise e, pbar) => (Raise e, pbar)
  end.

End Program.

(* ================================================================== *)
(** * Part I, continued: the object, its units and its export         *)
(* ================================================================== *)

(** ** Python strings

    A [str] whose characters are code points below 256 is a [string]. *)

Module str.

Import Ascii String.

(** [c.lower()]: the letters [A]-[Z] and the accented capitals
    U+00C0-U+00DE (the multiplication sign U+00D7 apart) move up by 32;
    every other character below 256 is its own lower case. *)
Definition lower_char (c : ascii) : ascii :=
  let n := nat_of_ascii c in
  if ((65 <=? n) && (n <=? 90)) || ((192 <=? n) && (n <=? 222) && negb (n =? 215))
  then ascii_of_nat (n + 32)
  else c.

(** [s.lower()]. *)
Fixpoint lower (s : string) : string :=
  match s with
  | EmptyString => EmptyString
  | String c s' => String (lower_char c) (lower s')
  end.

(** [unit in s]: [unit] occurs in [s] as a substring. *)
Fixpoint contains (unit s : string) : bool :=
  prefix unit s
  || match s with
     | EmptyString => false
     | String _ s' => contains unit s'
     end.

(** [os.path.basename(p)] (POSIX): what follows the last slash. *)
Fixpoint basename_from (tail p : string) : string :=
  match p with
  | EmptyString => tail
  | String c p' => if Ascii.eqb c "/" then basename_from p' p' else basename_from tail p'
  end.

Definition basename (p : string) : string := basename_from p p.

End str.

(** ** Dictionaries

    The raster's metadata is a [dict] with string keys.  Its values are
    strings (the driver, the dtype), integers (width, height, count) and
    objects the program hands on without looking into them (the CRS, the
    affine transform, the nodata value). *)

Inductive pyvalue :=
| PyStr (s : String.string)
| PyInt (n : Z)
| PyObject (tag : nat).

Definition dict := list (String.string * pyvalue).

(** [d[key] = v]: the value of an existing key is replaced where it
    stands, a new key goes to the end. *)
Fixpoint dict_set (key : String.string) (v : pyvalue) (d : dict) : dict :=
  match d with
  | [] => [(key, v)]
  | (k, v') :: d' =>
      if String.eqb key k then (key, v) :: d' else (k, v') :: dict_set key v d'
  end.

(** [d.get(key)]. *)
Fixpoint dict_get (key : String.string) (d : dict) : option pyvalue :=
  match d with
  | [] => None
  | (k, v) :: d' => if String.eqb key k then Some v else dict_get key d'
  end.

(** ** rasterio *)

Module rasterio.

(** What [analyze] reads from the dataset it opens: [src.meta],
    [src.read(1)] (a float64 band), [src.crs.linear_units] and
    [src.transform[0]]. *)
Record DatasetReader := {
  meta : dict;
  read1 : grid;
  linear_units : String.string;
  transform0 : float
}.

(** [x.astype(rasterio.float32)] on one sample: the binary64 number
    rounded to binary32 (to nearest, ties to even; beyond the binary32
    range, an infinity), as a [spec_float] of that format. *)
Definition float32 (x : float) : spec_float :=
  match Prim2SF x with
  | S754_finite s m e => binary_round 24 128 s m e
  | sf => sf
  end.

Definition astype_float32 (x : grid) : list (list spec_float) := map (map float32) x.

(** What [export_result] does to the outside: it opens a dataset for
    writing with the metadata as profile, writes one band into it, leaves
    the [with] block (which closes the dataset) and prints a line. *)
Inductive io :=
| OpenForWriting (path : String.string) (profile : dict)
| WriteBand (band : list (list spec_float)) (index : Z)
| Close
| PrintLine (line : String.string).

End rasterio.

(** ** The object

    The attributes of a [RugosityIndex] object.  [__init__] sets the
    conversion factors and the window size and leaves the others [None];
    [chunk_processing] and [chunksize] do not exist before [analyze] sets
    them. *)

Module instance.

Record t := {
  ft2mUS : float;
  ft2mInt : float;
  window_size : Z;
  Z : option grid;
  result : option grid;
  meta : option dict;
  input_dir : option String.string;
  window_size_m : option float;
  chunk_processing : option bool;
  chunksize : option (nat * nat)
}.

End instance.

(** [Z * k] for an array and a Python float. *)
Definition scale (k : float) (x : grid) : grid := map (map (fun z => (z * k)%float)) x.

Module method.

Import String.
Local Open Scope string_scope.

(** The exceptions of the methods. *)
Inductive error :=
| UnitError        (* ValueError: The unit of elevation 'z' must be in feet or meters. *)
| MetadataError    (* ValueError: Metadata is missing. Cannot export the result. *)
| NotAnalyzedError (* ValueError: Analysis must be run before plotting results. *)
| NoneTypeError    (* AttributeError: 'NoneType' object has no attribute 'astype' *)
| OpenError        (* rasterio.errors.RasterioIOError: the raster cannot be opened *)
| Computation (e : exn) (* raised by calculate_rugosity *).

Inductive outcome (A : Type) :=
| Return (a : A)
| Throw (e : error).
Arguments Return {A} a.
Arguments Throw {A} e.

(** [self.attribute = v]. *)
Definition set_Z (self : instance.t) (v : option grid) : instance.t :=
  {| instance.ft2mUS := instance.ft2mUS self; instance.ft2mInt := instance.ft2mInt self;
     instance.window_size := instance.window_size self;
     instance.Z := v; instance.result := instance.result self;
     instance.meta := instance.meta self; instance.input_dir := instance.input_dir self;
     instance.window_size_m := instance.window_size_m self;
     instance.chunk_processing := instance.chunk_processing self;
     instance.chunksize := instance.chunksize self |}.

Definition set_result (self : instance.t) (v : option grid) : instance.t :=
  {| instance.ft2mUS := instance.ft2mUS self; instance.ft2mInt := instance.ft2mInt self;
     instance.window_size := instance.window_size self;
     instance.Z := instance.Z self; instance.result := v;
     instance.meta := instance.meta self; instance.input_dir := instance.input_dir self;
     instance.window_size_m := instance.window_size_m self;
     instance.chunk_processing := instance.chunk_processing self;
     instance.chunksize := instance.chunksize self |}.

Definition set_meta (self : instance.t) (v : option dict) : instance.t :=
  {| instance.ft2mUS := instance.ft2mUS self; instance.ft2mInt := instance.ft2mInt self;
     instance.window_size := instance.window_size self;
     instance.Z := instance.Z self; instance.result := instance.result self;
     instance.meta := v; instance.input_dir := instance.input_dir self;
     instance.window_size_m := instance.window_size_m self;
     instance.chunk_processing := instance.chunk_processing self;
     instance.chunksize := instance.chunksize self |}.

Definition set_window_size_m (self : instance.t) (v : option float) : instance.t :=
  {| instance.ft2mUS := instance.ft2mUS self; instance.ft2mInt := instance.ft2mInt self;
     instance.window_size := instance.window_size self;
     instance.Z := instance.Z self; instance.result := instance.result self;
     instance.meta := instance.meta self; instance.input_dir := instance.input_dir self;
     instance.window_size_m := v;
     instance.chunk_processing := instance.chunk_processing self;
     instance.chunksize := instance.chunksize self |}.

(** The first three assignments of [analyze]: [input_dir],
    [chunk_processing], [chunksize]. *)
Definition set_arguments (self : instance.t) (input_dir : string)
           (chunk_processing : bool) (chunksize : nat * nat) : instance.t :=
  {| instance.ft2mUS := instance.ft2mUS self; instance.ft2mInt := instance.ft2mInt self;
     instance.window_size := instance.window_size self;
     instance.Z := instance.Z self; instance.result := instance.result self;
     instance.meta := instance.meta self; instance.input_dir := Some input_dir;
     instance.window_size_m := instance.window_size_m self;
     instance.chunk_processing := Some chunk_processing;
     instance.chunksize := Some chunksize |}.

(** [RugosityIndex(window_size)]. *)
Definition init (window_size : Z) : instance.t :=
  {| instance.ft2mUS := (1200 / 3937)%float;
     instance.ft2mInt := 0x1.381d7dbf487fdp-2%float   (* 0.3048 *);
     instance.window_size := window_size;
     instance.Z := None; instance.result := None; instance.meta := None;
     instance.input_dir := None; instance.window_size_m := None;
     instance.chunk_processing := None; instance.chunksize := None |}.

(** [any(unit in Zunit.lower() for unit in units)]. *)
Definition names (Zunit : string) (units : list string) : bool :=
  existsb (fun unit => str.contains unit (str.lower Zunit)) units.

Section Methods.

Variable hypot : float -> float -> float.

(** [analyze(self, input_dir, chunk_processing, chunksize)], on the
    dataset [src] that [rasterio.open(input_dir)] returns.  The value is
    what the method returns or raises, the object as the method leaves it
    and the count of the progress bar. *)
Definition analyze (self : instance.t) (input_dir : string) (src : rasterio.DatasetReader)
           (chunk_processing : bool) (chunksize : nat * nat) (pbar : nat)
  : outcome (grid * grid * dict * float) * instance.t * nat :=
  let self := set_arguments self input_dir chunk_processing chunksize in
  let self := set_meta self (Some (rasterio.meta src)) in
  let self := set_Z self (Some (rasterio.read1 src)) in
  let Zunit := rasterio.linear_units src in
  let gridsize := rasterio.transform0 src in
  let converted :=
    if names Zunit ["metre"; "meter"; "meters"] then
      Some (self, rasterio.read1 src, gridsize)
    else if names Zunit ["foot"; "feet"; "ft"] then
      if names Zunit ["us"; "united states"] then
        let Z := scale (instance.ft2mUS self) (rasterio.read1 src) in
        Some (set_Z self (Some Z), Z, (gridsize * instance.ft2mUS self)%float)
      else
        let Z := scale (instance.ft2mInt self) (rasterio.read1 src) in
        Some (set_Z self (Some Z), Z, (gridsize * instance.ft2mInt self)%float)
    else None in
  match converted with
  | None => (Throw UnitError, self, pbar)
  | Some (self, Z, gridsize) =>
      let attributes :=
        {| window_size := instance.window_size self;
           chunk_processing := chunk_processing;
           chunksize := chunksize |} in
      match analyze hypot attributes Z gridsize pbar with
      | (Raise e, pbar) => (Throw (Computation e), self, pbar)
      | (Ok result, pbar) =>
          let self := set_result self (Some result) in
          let window_size_m :=
            (gridsize * np.float_of_int (instance.window_size self))%float in
          let self := set_window_size_m self (Some window_size_m) in
          (Return (Z, result, rasterio.meta src, window_size_m), self, pbar)
      end
  end.

End Methods.

(** [analyze] on a path that [rasterio.open] cannot open: the three
    assignments made before the call stay, rasterio's exception leaves
    the method and nothing else of the object is touched. *)
Definition analyze_unopened (self : instance.t) (input_dir : string)
           (chunk_processing : bool) (chunksize : nat * nat) (pbar : nat)
  : outcome (grid * grid * dict * float) * instance.t * nat :=
  (Throw OpenError, set_arguments self input_dir chunk_processing chunksize, pbar).

(** [self.meta.update(dtype=rasterio.float32, count=1, compress='deflate',
    bigtiff='IF_SAFER')]. *)
Definition update_meta (meta : dict) : dict :=
  dict_set "bigtiff" (PyStr "IF_SAFER")
    (dict_set "compress" (PyStr "deflate")
       (dict_set "count" (PyInt 1)
          (dict_set "dtype" (PyStr "float32") meta))).

(** [export_result(self, output_dir)]: what the method returns or raises,
    the object as it leaves it, and what it has done to the outside. *)
Definition export_result (self : instance.t) (output_dir : string)
  : outcome unit * instance.t * list rasterio.io :=
  match instance.meta self with
  | None => (Throw MetadataError, self, [])
  | Some meta =>
      let meta := update_meta meta in
      let self := set_meta self (Some meta) in
      match instance.result self with
      | None =>
          (Throw NoneTypeError, self,
           [rasterio.OpenForWriting output_dir meta; rasterio.Close])
      | Some result =>
          (Return tt, self,
           [rasterio.OpenForWriting output_dir meta;
            rasterio.WriteBand (rasterio.astype_float32 result) 1;
            rasterio.Close;
            rasterio.PrintLine ("Processed result saved to " ++ str.basename output_dir)])
      end
  end.

(** The check that opens [plot_result]; the drawing that follows it is
    outside the model. *)
Definition plot_result_check (self : instance.t) : outcome unit :=
  match instance.Z self, instance.result self with
  | Some _, Some _ => Return tt
  | _, _ => Throw NotAnalyzedError
  end.

End method.

(* ================================================================== *)
(** * Part II: notions used to state the properties                    *)
(* ================================================================== *)

(** ** Arrays given by their cells *)

Definition tabulate {A} (R C : nat) (h : nat -> nat -> A) : list (list A) :=
  map (fun i => map (h i) (seq 0 C)) (seq 0 R).

(** ** Padding policies

    A window of size [2 * depth + 1] centred on the cell [(i, j)] reads the
    rows [i - depth .. i + depth]; below, [k] is such a row (or column)
    index shifted by [depth], so that [k < depth] is before the array and
    [depth + n <= k] is behind it. *)

(** Reflection about the edge, the edge sample included:
    [.. x1 x0 | x0 x1 .. ]. *)
Definition reflect_index (n depth k : nat) : nat :=
  if k <? depth then depth - 1 - k
  else if k <? depth + n then k - depth
  else n - 1 - (k - depth - n).

Definition window_reflect (x : grid) (depth i j : nat) : list float :=
  flat_map
    (fun a => map (fun b => get x (reflect_index (nrows x) depth (i + a))
                                (reflect_index (ncols x) depth (j + b)))
                  (seq 0 (2 * depth + 1)))
    (seq 0 (2 * depth + 1)).

(** ** Chunks *)

(** The length covered by a list of chunk sizes. *)
Fixpoint total (dims : list nat) : nat :=
  match dims with
  | [] => 0
  | h :: dims' => h + total dims'
  end.

(** ** The fringe *)

Definition in_fringe (R C fringeval i j : nat) : bool :=
  (i <? fringeval) || (j <? fringeval) || (R - fringeval <=? i) || (C - fringeval <=? j).

(** The rugosity grid returned by a run, if any. *)
Definition returned {A} (r : result A * nat) : option A :=
  match fst r with Ok a => Some a | Raise _ => None end.

(** A valid window size: odd and at least 3. *)
Definition valid_window (W : Z) : Prop := (Z.odd W = true /\ 3 <= W)%Z.

(** A run fails fast: it raises, and the progress count it was started
    with is the count it leaves. *)
Definition fails_fast {A} (r : result A * nat) (pbar : nat) : Prop :=
  exists e, r = (Raise e, pbar).

(** The two processors, for a window size and a chunk shape. *)
Definition sequential (W : Z) : RugosityIndex :=
  {| window_size := W; chunk_processing := false; chunksize := (512, 512) |}.

Definition chunked (W : Z) (tile : nat * nat) : RugosityIndex :=
  {| window_size := W; chunk_processing := true; chunksize := tile |}.

Definition valid_tile (tile : nat * nat) : Prop := 0 < fst tile /\ 0 < snd tile.

(** What the boundary claim says of the sequential traversal: every cell
    of its raw output is the filter on the window padded by reflection. *)
Definition sequential_reflects (hypot : float -> float -> float)
           (W : Z) (elev : grid) (cell_size : float) : Prop :=
  forall out pbar,
    calculate_rugosity hypot (sequential W) elev cell_size 0 = (Ok out, pbar) ->
    forall i j, i < nrows elev -> j < ncols elev ->
      rugosity_filter hypot W cell_size (window_reflect elev (Z.to_nat (W / 2)) i j)
      = Ok (get out i j).

(** ** The ratio

    The planar area as binary64 computes it, the condition under which
    Python computes it and divides by it without raising (the square does
    not overflow and is not zero), and the ratio then returned. *)

Definition planar_area (W : Z) (cell_size : float) : float :=
  np.square (np.float_of_int (W - 1) * cell_size)%float.

Definition planar_defined (W : Z) (cell_size : float) : bool :=
  negb (is_finite (np.float_of_int (W - 1) * cell_size)%float
        && is_infinity (planar_area W cell_size))
  && negb (is_zero (planar_area W cell_size)).

Definition ratio (hypot : float -> float -> float) (W : Z) (cell_size : float)
           (values : list float) : float :=
  (compute_triangle_areas hypot values cell_size / planar_area W cell_size)%float.

(** ** The estimator as the specification words it

    A window of side [W] is swept over its cells outside the last row and
    the last column, row by row; each swept cell contributes eight times
    the area of one triangle, whose edges join the centre of the window,
    the cell and its right neighbour. *)

Definition swept_cells (W : nat) : list nat :=
  flat_map (fun i => map (fun j => i * W + j) (seq 0 (W - 1))) (seq 0 (W - 1)).

(** The cells outside the last row and the last column. *)
Definition inner_cell (W idx : nat) : bool :=
  (idx / W <? W - 1) && (idx mod W <? W - 1).

(** The flattened index of the centre: row [W / 2], column [W / 2]. *)
Definition window_center (W : nat) : nat := (W / 2) * W + W / 2.

Definition spec_heron (orthogonal diagonal adjacent : float) : float :=
  let s := ((orthogonal + diagonal + adjacent) / 2)%float in
  sqrt (abs (s * (s - orthogonal) * (s - diagonal) * (s - adjacent)))%float.

Definition spec_fallback (cell_size area : float) : float :=
  if is_nan area || (area <=? 0)%float then (cell_size * cell_size / 2)%float else area.

Definition spec_triangle (hypot : float -> float -> float)
           (values : list float) (cell_size center : float) (idx : nat) : float :=
  let v := nth idx values nan in
  let v1 := nth (idx + 1) values nan in
  let orthogonal := (hypot (center - v) cell_size / 2)%float in
  let diagonal := (hypot (center - v) (sqrt 2 * cell_size) / 2)%float in
  let adjacent := (hypot (v - v1) cell_size / 2)%float in
  spec_fallback cell_size (spec_heron orthogonal diagonal adjacent).

Definition spec_surface_area (hypot : float -> float -> float)
           (W : nat) (values : list float) (cell_size : float) : float :=
  let center := nth (window_center W) values nan in
  fold_left
    (fun total idx => (total + spec_triangle hypot values cell_size center idx * 8)%float)
    (swept_cells W) 0%float.

(** ** Flat grids *)

(** The grid of [R] rows and [C] columns of constant elevation [c]. *)
Definition flat_grid (R C : nat) (c : float) : grid := repeat (repeat c C) R.

(** ** Signs of binary64 numbers

    [nonneg x] holds when [x] is a number (not NaN) and [0 <= x]; the
    zeros of both signs and [+inf] are non-negative. *)

Definition nonneg (x : float) : bool := (0 <=? x)%float.

(** The same on the specification of binary64 ([spec_float]). *)
Definition SFnonneg (x : spec_float) : bool :=
  match x with
  | S754_zero _ => true
  | S754_infinity s | S754_finite s _ _ => negb s
  | S754_nan => false
  end.

(** [x] is a number above zero: finite and positive, or [+inf]. *)
Definition SFpos (x : spec_float) : bool :=
  match x with
  | S754_infinity s | S754_finite s _ _ => negb s
  | _ => false
  end.

(** [x] is a zero, an infinity or a finite number of sign [s]. *)
Definition SFsign_is (s : bool) (x : spec_float) : bool :=
  match x with
  | S754_zero s' | S754_infinity s' | S754_finite s' _ _ => Bool.eqb s' s
  | S754_nan => false
  end.

(** ** The estimator with checked reads

    numba compiles [values[k]] without a bounds check.  Below, the same
    estimator with the check put back: [None] as soon as a read falls
    outside the array. *)

Definition getitem_checked (values : list float) (k : nat) : option float :=
  nth_error values k.

Definition loop_body_checked (hypot : float -> float -> float)
           (values : list float) (cell_size center : float)
           (window_size : nat) (total_surface_area : float) (i j : nat) : option float :=
  let idx := i * window_size + j in
  match getitem_checked values idx, getitem_checked values (idx + 1) with
  | Some vi, Some vi1 =>
      let area := guard_area cell_size (heron_area hypot center vi vi1 cell_size) in
      Some (total_surface_area + area * 8)%float
  | _, _ => None
  end.

Definition compute_triangle_areas_checked (hypot : float -> float -> float)
           (values : list float) (cell_size : float) : option float :=
  let window_size := np.int_sqrt (length values) in
  match getitem_checked values (length values / 2) with
  | None => None
  | Some center =>
      fold_left
        (fun total_surface_area i =>
           fold_left
             (fun total_surface_area j =>
                match total_surface_area with
                | Some total =>
                    loop_body_checked hypot values cell_size center window_size total i j
                | None => None
                end)
             (seq 0 (window_size - 1)) total_surface_area)
        (seq 0 (window_size - 1)) (Some 0%float)
  end.

(** ** Terrain turned upside down: [-Z]. *)
Definition negate (x : grid) : grid := map (map PrimFloat.opp) x.

(** ** The window of a cell

    The [(2 * depth + 1)^2] samples of the rows [i - depth .. i + depth]
    and the columns [j - depth .. j + depth], in row-major order, for a
    cell at least [depth] away from every edge. *)
Definition window_at (x : grid) (depth i j : nat) : list float :=
  flat_map
    (fun a => map (fun b => get x (i + a - depth) (j + b - depth))
                  (seq 0 (2 * depth + 1)))
    (seq 0 (2 * depth + 1)).

(** The exception [rugosity_filter] raises when its planar area is not
    defined: the division is reached only if the square did not overflow. *)
Definition planar_error (W : Z) (cell_size : float) : exn :=
  if is_zero (planar_area W cell_size) then ZeroDivisionError else OverflowError.

(** ** Uses of an object

    The calls a program makes on a [RugosityIndex] object after it has
    created it, and the object they leave. *)

Inductive call :=
| Analyze (input_dir : String.string) (src : option rasterio.DatasetReader)
          (chunk_processing : bool) (chunksize : nat * nat)
| ExportResult (output_dir : String.string).

(** [src] is the dataset that [rasterio.open(input_dir)] returns, [None]
    when it raises instead. *)
Definition after_call (hypot : float -> float -> float) (self : instance.t) (c : call)
  : instance.t :=
  match c with
  | Analyze input_dir (Some src) chunk_processing chunksize =>
      snd (fst (method.analyze hypot self input_dir src chunk_processing chunksize 0))
  | Analyze input_dir None chunk_processing chunksize =>
      snd (fst (method.analyze_unopened self input_dir chunk_processing chunksize 0))
  | ExportResult output_dir => snd (fst (method.export_result self output_dir))
  end.

(** A call that leaves the metadata of the object as it finds it when the
    object has none: an export, or an analysis whose raster could not be
    opened. *)
Definition opens_no_raster (c : call) : Prop :=
  match c with
  | Analyze _ (Some _) _ _ => False
  | Analyze _ None _ _ => True
  | ExportResult _ => True
  end.

(** The object after a sequence of calls, each of which may have raised
    (the program caught the exception and went on). *)
Definition after_calls (hypot : float -> float -> float) (self : instance.t)
           (calls : list call) : instance.t :=
  fold_left (after_call hypot) calls self.

(** The cell [(i, j)] of a binary32 band. *)
Definition get32 (band : list (list spec_float)) (i j : nat) : spec_float :=
  nth j (nth i band []) S754_nan.

(* ================================================================== *)
(** * Part III: lists and arrays                                      *)
(* ================================================================== *)

Section ListFacts.

Context {A B : Type}.

Lemma firstn_seq (n start len : nat) :
  firstn n (seq start len) = seq start (Nat.min n len).
Proof.
  revert start len; induction n as [|n IH]; intros start [|len]; simpl; trivial.
  now rewrite IH.
Qed.

Lemma In_firstn (n : nat) (l : list A) (a : A) : In a (firstn n l) -> In a l.
Proof.
  intros H. rewrite <- (firstn_skipn n l). apply in_or_app. now left.
Qed.

Lemma In_skipn (n : nat) (l : list A) (a : A) : In a (skipn n l) -> In a l.
Proof.
  intros H. rewrite <- (firstn_skipn n l). apply in_or_app. now right.
Qed.

Lemma In_slice (a n : nat) (l : list A) (v : A) : In v (slice a n l) -> In v l.
Proof. intros H. eapply In_skipn, In_firstn, H. Qed.

Lemma slice_map (f : A -> B) (a n : nat) (l : list A) :
  slice a n (map f l) = map f (slice a n l).
Proof. unfold slice. now rewrite skipn_map, firstn_map. Qed.

Lemma slice_seq (a n len : nat) :
  a + n <= len -> slice a n (seq 0 len) = seq a n.
Proof.
  intros H. unfold slice. rewrite skipn_seq, firstn_seq.
  f_equal. lia.
Qed.

Lemma length_slice (a n : nat) (l : list A) :
  a + n <= length l -> length (slice a n l) = n.
Proof.
  intros H. unfold slice. rewrite length_firstn, length_skipn. lia.
Qed.

Lemma nth_slice (a n i : nat) (l : list A) (d : A) :
  i < n -> nth i (slice a n l) d = nth (a + i) l d.
Proof.
  intros H. unfold slice. rewrite nth_firstn, nth_skipn.
  apply Nat.ltb_lt in H. now rewrite H.
Qed.

Lemma map_seq_shift (f : nat -> A) (a b n : nat) :
  map (fun k => f (a + k - b)) (seq b n) = map f (seq a n).
Proof.
  revert a b; induction n as [|n IH]; intros a b; simpl; trivial.
  f_equal.
  - f_equal. lia.
  - rewrite <- (IH (S a) (S b)). apply map_ext. intros k. f_equal.
Qed.

Lemma fold_left_ext_in (f g : B -> A -> B) (l : list A) (b : B) :
  (forall acc x, In x l -> f acc x = g acc x) ->
  fold_left f l b = fold_left g l b.
Proof.
  revert b; induction l as [|x l IH]; intros b H; simpl; trivial.
  rewrite H by now left. apply IH. intros acc y Hy. apply H. now right.
Qed.

Lemma fold_left_flat_map {X} (f : B -> A -> B) (g : X -> list A) (l : list X) (b : B) :
  fold_left f (flat_map g l) b
  = fold_left (fun acc x => fold_left f (g x) acc) l b.
Proof.
  revert b; induction l as [|x l IH]; intros b; simpl; trivial.
  now rewrite fold_left_app, IH.
Qed.

End ListFacts.

(** *** Chunks *)

Lemma total_app (l l' : list nat) : total (l ++ l') = total l + total l'.
Proof. induction l as [|h l IH]; simpl; lia. Qed.

Lemma total_repeat (c n : nat) : total (repeat c n) = n * c.
Proof. induction n as [|n IH]; simpl; lia. Qed.

Lemma total_blockdims (d bd : nat) : 0 < bd -> total (blockdims d bd) = d.
Proof.
  intros Hbd. unfold blockdims.
  destruct (Nat.eqb_spec d 0) as [->|Hd]; [reflexivity|].
  rewrite total_app, total_repeat.
  pose proof (Nat.div_mod_eq d bd) as E.
  destruct (Nat.eqb_spec (d mod bd) 0) as [Hz|Hz]; simpl; nia.
Qed.

Lemma blocks_from_bounds (start : nat) (dims : list nat) (s h : nat) :
  In (s, h) (blocks_from start dims) ->
  start <= s /\ s + h <= start + total dims.
Proof.
  revert start; induction dims as [|h0 dims IH]; intros start; simpl; [tauto|].
  intros [E|Hin].
  - inversion E; subst. lia.
  - apply IH in Hin. lia.
Qed.

Lemma blockdims_nonempty (d bd : nat) : blockdims d bd <> [].
Proof.
  unfold blockdims. destruct (Nat.eqb_spec d 0) as [Hd|Hd]; [discriminate|].
  destruct (Nat.eqb_spec (d mod bd) 0) as [Hm|Hm].
  - rewrite app_nil_r. destruct (d / bd) as [|q] eqn:Eq; [|discriminate].
    pose proof (Nat.div_mod_eq d bd). nia.
  - intros E. apply app_eq_nil in E as [_ E]. discriminate.
Qed.

Lemma blocks_from_nonempty (start : nat) (dims : list nat) :
  dims <> [] -> blocks_from start dims <> [].
Proof. destruct dims; [congruence|discriminate]. Qed.

(** Blocks that each hold their own stretch of a sequence, put end to end,
    hold the whole sequence. *)
Lemma concat_blocks {A} (F : nat * nat -> list A) (G : nat -> A)
      (start : nat) (dims : list nat) :
  (forall s h, In (s, h) (blocks_from start dims) -> F (s, h) = map G (seq s h)) ->
  concat (map F (blocks_from start dims)) = map G (seq start (total dims)).
Proof.
  revert start; induction dims as [|h dims IH]; intros start HF; simpl; trivial.
  rewrite seq_app, map_app. f_equal.
  - apply HF. now left.
  - apply IH. intros s h' Hin. apply HF. now right.
Qed.

(** *** Rectangular arrays *)

Lemma rect_nrows (R C : nat) (x : grid) : rect R C x -> nrows x = R.
Proof. now intros [H _]. Qed.

Lemma rect_ncols (R C : nat) (x : grid) : rect R C x -> 0 < R -> ncols x = C.
Proof.
  intros [HR HC] Hpos. unfold ncols.
  destruct x as [|row x]; simpl in *; [lia|].
  now inversion HC.
Qed.

Lemma rect_row (R C : nat) (x : grid) (i : nat) :
  rect R C x -> i < R -> length (nth i x []) = C.
Proof.
  intros [HR HC] Hi. rewrite Forall_forall in HC. apply HC, nth_In. lia.
Qed.

Lemma rect_tabulate (R C : nat) (h : nat -> nat -> float) : rect R C (tabulate R C h).
Proof.
  split.
  - unfold tabulate. now rewrite length_map, length_seq.
  - apply Forall_forall. intros row Hin. unfold tabulate in Hin.
    apply in_map_iff in Hin as [i [<- _]]. now rewrite length_map, length_seq.
Qed.

Lemma nth_map_seq {A} (f : nat -> A) (start n i : nat) (d : A) :
  i < n -> nth i (map f (seq start n)) d = f (start + i).
Proof.
  intros Hi.
  rewrite (nth_indep _ d (f 0)) by now rewrite length_map, length_seq.
  now rewrite map_nth, seq_nth.
Qed.

Lemma get_tabulate (R C : nat) (h : nat -> nat -> float) (i j : nat) :
  i < R -> j < C -> get (tabulate R C h) i j = h i j.
Proof.
  intros Hi Hj. unfold get, tabulate.
  now rewrite nth_map_seq, nth_map_seq.
Qed.


(** *** Exceptions *)

Lemma Ok_inj {A} (a b : A) : Ok a = Ok b -> a = b.
Proof. intros E. now injection E. Qed.

Lemma collect_ok {A B} (g : A -> B) (l : list A) :
  collect (map (fun a => Ok (g a)) l) = Ok (map g l).
Proof.
  induction l as [|a l IH]; simpl; trivial. now rewrite IH.
Qed.

Lemma collect_raise {A B} (F : A -> result B) (e : exn) (l : list A) :
  l <> [] -> (forall a, In a l -> F a = Raise e) -> collect (map F l) = Raise e.
Proof.
  intros Hl HF. destruct l as [|a l]; [congruence|].
  simpl. now rewrite (HF a) by now left.
Qed.

(** The filter raises for every window or for none: the exception comes
    from the planar area, which does not depend on the window. *)
Lemma rugosity_filter_defined
      (hypot : float -> float -> float) (W : Z) (cell_size : float) (values : list float) :
  planar_defined W cell_size = true ->
  rugosity_filter hypot W cell_size values = Ok (ratio hypot W cell_size values).
Proof.
  unfold planar_defined, rugosity_filter, ratio, planar_area, py.pow2, py.truediv, np.square.
  intros H. apply andb_true_iff in H as [H1 H2].
  apply negb_true_iff in H1, H2. rewrite H1. simpl. now rewrite H2.
Qed.

Lemma rugosity_filter_raises (W : Z) (cell_size : float) :
  planar_defined W cell_size = false ->
  exists e, forall hypot values, rugosity_filter hypot W cell_size values = Raise e.
Proof.
  unfold planar_defined, rugosity_filter, planar_area, py.pow2, py.truediv, np.square.
  intros H.
  destruct (is_finite _ && is_infinity _) eqn:H1.
  - exists OverflowError. reflexivity.
  - simpl in H. apply negb_false_iff in H. exists ZeroDivisionError.
    intros hypot values. simpl. now rewrite H.
Qed.

(** *** Callbacks and their state *)

Lemma traverse_pure {S A B} (g : A -> B) (l : list A) (s : S) :
  traverse (fun a s => (Ok (g a), s)) l s = (Ok (map g l), s).
Proof.
  induction l as [|a l IH]; simpl; trivial. now rewrite IH.
Qed.

Lemma traverse_ext {S A B} (f f' : A -> S -> result B * S) (l : list A) (s : S) :
  (forall a s, f a s = f' a s) -> traverse f l s = traverse f' l s.
Proof.
  intros H. revert s; induction l as [|a l IH]; intros s; simpl; trivial.
  rewrite H. destruct (f' a s) as [[b|e] s1]; trivial. now rewrite IH.
Qed.

(** A callback that advances a counter by [c] at every call. *)
Lemma traverse_count {A B} (g : A -> B) (c : nat) (l : list A) (n : nat) :
  traverse (fun a n => (Ok (g a), c + n)) l n = (Ok (map g l), c * length l + n).
Proof.
  revert n; induction l as [|a l IH]; intros n; simpl.
  - f_equal. lia.
  - rewrite IH. f_equal. lia.
Qed.

(** A callback that raises ends the traversal at its first call. *)
Lemma traverse_raise {S A B} (e : exn) (h : A -> S -> S) (l : list A) (s : S) :
  l <> [] -> exists a,
    traverse (fun a s => (@Raise B e, h a s)) l s = (Raise e, h a s).
Proof.
  intros Hl. destruct l as [|a l]; [congruence|]. now exists a.
Qed.

(** A traversal that returns has called the callback on every element. *)
Lemma traverse_returns {S A B} (P : B -> Prop) (f : A -> S -> result B * S)
      (l : list A) (s s' : S) (bs : list B) :
  (forall a s b s1, f a s = (Ok b, s1) -> P b) ->
  traverse f l s = (Ok bs, s') -> length bs = length l /\ Forall P bs.
Proof.
  intros Hf. revert s s' bs; induction l as [|a l IH]; intros s s' bs; simpl.
  - intros E. inversion E. split; [reflexivity|constructor].
  - destruct (f a s) as [[b|e] s1] eqn:Ea; [|discriminate].
    destruct (traverse f l s1) as [[bs'|e] s2] eqn:El; [|discriminate].
    intros E. inversion E; subst. destruct (IH _ _ _ El) as [Hlen Hall].
    split; [simpl; now rewrite Hlen|]. constructor; trivial. eapply Hf, Ea.
Qed.

(** [generic_filter] with a callback that has no effect. *)
Lemma generic_filter_pure (f : list float -> float) (size : nat) (input : grid) :
  fst (generic_filter (fun values (u : unit) => (Ok (f values), u)) size input tt)
  = Ok (tabulate (nrows input) (ncols input)
          (fun i j => f (window_nearest input size i j))).
Proof.
  unfold generic_filter, tabulate.
  rewrite (traverse_ext _
             (fun i u => (Ok (map (fun j => f (window_nearest input size i j))
                                  (seq 0 (ncols input))), u))).
  - now rewrite traverse_pure.
  - intros i u. apply traverse_pure.
Qed.

(** [generic_filter] with a callback that counts its calls. *)
Lemma generic_filter_progress (f : list float -> float) (size : nat) (input : grid) (n : nat) :
  generic_filter (fun values n => (Ok (f values), S n)) size input n
  = (Ok (tabulate (nrows input) (ncols input)
           (fun i j => f (window_nearest input size i j))),
     nrows input * ncols input + n).
Proof.
  unfold generic_filter, tabulate.
  rewrite (traverse_ext _
             (fun i n => (Ok (map (fun j => f (window_nearest input size i j))
                                  (seq 0 (ncols input))), ncols input + n))).
  - rewrite traverse_count, length_seq. f_equal. lia.
  - intros i k. rewrite (traverse_count _ 1). rewrite length_seq. f_equal. lia.
Qed.

(** [generic_filter] with a callback that raises: on an array that is not
    empty the first window ends the traversal. *)
Lemma generic_filter_raise {S} (e : exn) (h : S -> S) (size : nat) (input : grid) (s : S) :
  0 < nrows input -> 0 < ncols input ->
  generic_filter (fun _ s => (Raise e, h s)) size input s = (Raise e, h s).
Proof.
  intros HR HC. unfold generic_filter.
  destruct (nrows input) as [|R]; [lia|]. destruct (ncols input) as [|C]; [lia|].
  reflexivity.
Qed.

(** The output of [generic_filter] has the shape of its input. *)
Lemma generic_filter_shape {S} (function : list float -> S -> result float * S)
      (size : nat) (input out : grid) (s s' : S) :
  generic_filter function size input s = (Ok out, s') ->
  rect (nrows input) (ncols input) out.
Proof.
  unfold generic_filter. intros E.
  apply (traverse_returns (fun row => length row = ncols input)) in E.
  - destruct E as [Hlen Hall]. rewrite length_seq in Hlen. now split.
  - intros i s0 row s1 Erow.
    apply (traverse_returns (fun _ => True)) in Erow; [|trivial].
    destruct Erow as [Hlen _]. now rewrite length_seq in Hlen.
Qed.

Lemma generic_filter_ext {S} (f f' : list float -> S -> result float * S)
      (size : nat) (input : grid) (s : S) :
  (forall values s, f values s = f' values s) ->
  generic_filter f size input s = generic_filter f' size input s.
Proof.
  intros E. unfold generic_filter.
  apply traverse_ext. intros i s1. apply traverse_ext. intros j s2. apply E.
Qed.

Lemma map_overlap_ext (func func' : grid -> result grid) (depth : nat)
      (chunks : nat * nat) (x : grid) :
  (forall block, func block = func' block) ->
  map_overlap func depth chunks x = map_overlap func' depth chunks x.
Proof.
  intros E. unfold map_overlap. destruct chunks as [ch cw].
  destruct ((ch =? 0) || (cw =? 0)); trivial.
  destruct ((nrows x <? depth) || (ncols x <? depth)); trivial.
  rewrite (E [[1%float]]). destruct (func' [[1%float]]); trivial.
  f_equal. f_equal. apply map_ext. intros [r0 h].
  f_equal. f_equal. apply map_ext. intros [c0 w]. now rewrite E.
Qed.

(** A chunked traversal that returns was given chunks of positive size
    and an array that holds the overlap. *)
Lemma map_overlap_returns (func : grid -> result grid) (depth ch cw : nat) (x y : grid) :
  map_overlap func depth (ch, cw) x = Ok y ->
  0 < ch /\ 0 < cw /\ depth <= nrows x /\ depth <= ncols x.
Proof.
  unfold map_overlap.
  destruct (Nat.eqb_spec ch 0); [discriminate|].
  destruct (Nat.eqb_spec cw 0); [discriminate|].
  destruct (Nat.ltb_spec (nrows x) depth); [discriminate|].
  destruct (Nat.ltb_spec (ncols x) depth); [discriminate|].
  intros _. lia.
Qed.

(** *** Reflection padding *)

Lemma half_odd (d : nat) : (2 * d + 1) / 2 = d.
Proof. symmetry. apply (Nat.div_unique _ _ d 1); lia. Qed.

Lemma reflect_index_lt (n depth k : nat) :
  depth <= n -> k < n + 2 * depth -> reflect_index n depth k < n.
Proof.
  intros Hd Hk. unfold reflect_index.
  destruct (Nat.ltb_spec k depth); [lia|].
  destruct (Nat.ltb_spec k (depth + n)); lia.
Qed.

Lemma length_reflect {A} (depth : nat) (l : list A) :
  depth <= length l -> length (reflect depth l) = length l + 2 * depth.
Proof.
  intros H. unfold reflect.
  rewrite !length_app, length_rev, !length_firstn, length_rev. lia.
Qed.

Lemma nth_reflect {A} (depth : nat) (l : list A) (k : nat) (d : A) :
  depth <= length l -> k < length l + 2 * depth ->
  nth k (reflect depth l) d = nth (reflect_index (length l) depth k) l d.
Proof.
  intros Hd Hk. unfold reflect, reflect_index.
  assert (Hf : length (rev (firstn depth l)) = depth)
    by (rewrite length_rev, length_firstn; lia).
  destruct (Nat.ltb_spec k depth) as [H1|H1].
  - rewrite app_nth1 by lia.
    rewrite rev_nth by (rewrite length_firstn; lia).
    rewrite length_firstn, nth_firstn.
    replace (Nat.min depth (length l) - S k) with (depth - 1 - k) by lia.
    destruct (Nat.ltb_spec (depth - 1 - k) depth); [reflexivity|lia].
  - rewrite app_nth2 by lia. rewrite Hf.
    destruct (Nat.ltb_spec k (depth + length l)) as [H2|H2].
    + rewrite app_nth1 by lia. reflexivity.
    + rewrite app_nth2 by lia. rewrite nth_firstn.
      destruct (Nat.ltb_spec (k - depth - length l) depth); [|lia].
      rewrite rev_nth by lia. f_equal. lia.
Qed.

Lemma rect_boundaries (R C depth : nat) (x : grid) :
  rect R C x -> depth <= R -> depth <= C ->
  rect (R + 2 * depth) (C + 2 * depth) (boundaries depth x).
Proof.
  intros [HR HC] HdR HdC. unfold boundaries. split.
  - rewrite length_map, length_reflect; lia.
  - apply Forall_forall. intros row Hin.
    apply in_map_iff in Hin as [row0 [<- Hin0]].
    assert (Hrow0 : length row0 = C).
    { rewrite Forall_forall in HC. apply HC.
      unfold reflect in Hin0. rewrite !in_app_iff in Hin0.
      destruct Hin0 as [H|[H|H]]; trivial.
      - apply in_rev in H. now apply In_firstn in H.
      - apply In_firstn in H. now apply in_rev in H. }
    rewrite length_reflect; lia.
Qed.

Lemma get_boundaries (R C depth : nat) (x : grid) (a b : nat) :
  rect R C x -> depth <= R -> depth <= C ->
  a < R + 2 * depth -> b < C + 2 * depth ->
  get (boundaries depth x) a b
  = get x (reflect_index R depth a) (reflect_index C depth b).
Proof.
  intros Hx HdR HdC Ha Hb. pose proof Hx as [HR HC].
  unfold get, boundaries.
  rewrite (nth_indep _ [] (reflect depth []))
    by (rewrite length_map, length_reflect; lia).
  rewrite map_nth.
  rewrite (nth_reflect depth x a []) by lia. rewrite HR.
  assert (Hi : reflect_index R depth a < R) by now apply reflect_index_lt.
  pose proof (rect_row R C x _ Hx Hi) as Hlen.
  rewrite nth_reflect by lia. now rewrite Hlen.
Qed.

(** *** Sub-arrays *)

Lemma rect_block (R C r0 h c0 w : nat) (x : grid) :
  rect R C x -> r0 + h <= R -> c0 + w <= C ->
  rect h w (map (slice c0 w) (slice r0 h x)).
Proof.
  intros [HR HC] Hr Hc. split.
  - rewrite length_map, length_slice; lia.
  - apply Forall_forall. intros row Hin.
    apply in_map_iff in Hin as [row0 [<- Hin0]].
    rewrite length_slice; trivial.
    rewrite Forall_forall in HC. rewrite HC; trivial.
    eapply In_slice, Hin0.
Qed.

Lemma get_block (R C r0 h c0 w : nat) (x : grid) (a b : nat) :
  rect R C x -> r0 + h <= R -> c0 + w <= C -> a < h -> b < w ->
  get (map (slice c0 w) (slice r0 h x)) a b = get x (r0 + a) (c0 + b).
Proof.
  intros [HR HC] Hr Hc Ha Hb. unfold get.
  rewrite (nth_indep _ [] (slice c0 w []))
    by (rewrite length_map, length_slice; lia).
  rewrite map_nth, nth_slice by assumption.
  now rewrite nth_slice.
Qed.

Lemma map_seq_add {A} (f : nat -> A) (a n : nat) :
  map (fun k => f (a + k)) (seq 0 n) = map f (seq a n).
Proof.
  rewrite <- (map_seq_shift f a 0 n). apply map_ext. intros k. f_equal. lia.
Qed.

(** *** The chunked traversal, cell by cell *)

Section Chunked.

Variable f : list float -> float.
Variables (R C depth : nat) (x : grid).
Hypothesis Hx : rect R C x.
Hypothesis Hdepth : 1 <= depth.
Hypothesis HdR : depth <= R.
Hypothesis HdC : depth <= C.

Let padded := boundaries depth x.
Let extended (r0 h c0 w : nat) : grid :=
  map (slice c0 (w + 2 * depth)) (slice r0 (h + 2 * depth) padded).

(** Inside an extended block, the window of a cell of the core reads the
    samples of the array, reflected at its edges; the filter's own
    padding is never reached. *)
Lemma window_extended (r0 h c0 w a b : nat) :
  r0 + h <= R -> c0 + w <= C ->
  depth <= a < depth + h -> depth <= b < depth + w ->
  window_nearest (extended r0 h c0 w) (2 * depth + 1) a b
  = window_reflect x depth (r0 + a - depth) (c0 + b - depth).
Proof.
  intros Hr Hc Ha Hb.
  assert (HP : rect (R + 2 * depth) (C + 2 * depth) padded)
    by now apply rect_boundaries.
  assert (HE : rect (h + 2 * depth) (w + 2 * depth) (extended r0 h c0 w))
    by (apply (rect_block (R + 2 * depth) (C + 2 * depth)); trivial; lia).
  unfold window_nearest, window_reflect.
  rewrite (rect_nrows _ _ _ HE), (rect_ncols _ _ _ HE) by lia.
  rewrite (rect_nrows _ _ _ Hx), (rect_ncols _ _ _ Hx) by lia.
  rewrite half_odd, !flat_map_concat_map. f_equal.
  apply map_ext_in. intros p Hp. apply map_ext_in. intros q Hq.
  apply in_seq in Hp, Hq. unfold nearest.
  replace (Nat.min (h + 2 * depth - 1) (a + p - depth)) with (a + p - depth) by lia.
  replace (Nat.min (w + 2 * depth - 1) (b + q - depth)) with (b + q - depth) by lia.
  unfold extended.
  rewrite (get_block (R + 2 * depth) (C + 2 * depth)) by (trivial; lia).
  unfold padded. rewrite (get_boundaries R C) by (trivial; lia).
  f_equal; f_equal; lia.
Qed.

Let H (i j : nat) : float := f (window_reflect x depth i j).

Lemma trimmed_block (r0 h c0 w : nat) :
  r0 + h <= R -> c0 + w <= C ->
  trim_internal depth
    (tabulate (h + 2 * depth) (w + 2 * depth)
       (fun a b => f (window_nearest (extended r0 h c0 w) (2 * depth + 1) a b)))
  = map (fun i => map (H i) (seq c0 w)) (seq r0 h).
Proof.
  intros Hr Hc. unfold trim_internal, tabulate.
  rewrite length_map, length_seq, slice_map, slice_seq by lia.
  replace (h + 2 * depth - depth - depth) with h by lia.
  rewrite map_map.
  rewrite <- (map_seq_shift (fun i => map (H i) (seq c0 w)) r0 depth h).
  apply map_ext_in. intros a Ha. apply in_seq in Ha.
  rewrite length_map, length_seq, slice_map, slice_seq by lia.
  replace (w + 2 * depth - depth - depth) with w by lia.
  rewrite <- (map_seq_shift (H (r0 + a - depth)) c0 depth w).
  apply map_ext_in. intros b Hb. apply in_seq in Hb.
  unfold H. f_equal. apply window_extended; lia.
Qed.

Let func (block : grid) : result grid :=
  fst (generic_filter (fun values (u : unit) => (Ok (f values), u))
                      (2 * depth + 1) block tt).

Lemma block_value (r0 h c0 w : nat) :
  r0 + h <= R -> c0 + w <= C ->
  (b <- func (extended r0 h c0 w) ;; Ok (trim_internal depth b))
  = Ok (map (fun i => map (H i) (seq c0 w)) (seq r0 h)).
Proof.
  intros Hr Hc.
  assert (HP : rect (R + 2 * depth) (C + 2 * depth) padded)
    by now apply rect_boundaries.
  assert (HE : rect (h + 2 * depth) (w + 2 * depth) (extended r0 h c0 w))
    by (apply (rect_block (R + 2 * depth) (C + 2 * depth)); trivial; lia).
  unfold func. rewrite generic_filter_pure.
  rewrite (rect_nrows _ _ _ HE), (rect_ncols _ _ _ HE) by lia.
  cbn [bind]. now rewrite trimmed_block.
Qed.

Lemma block_row_value (cw r0 h : nat) :
  0 < cw -> r0 + h <= R ->
  (blocks <-
     collect (map (fun '(c0, w) =>
                     b <- func (extended r0 h c0 w) ;; Ok (trim_internal depth b))
                  (blocks_from 0 (blockdims C cw))) ;;
   Ok (hstack h blocks))
  = Ok (map (fun i => map (H i) (seq 0 C)) (seq r0 h)).
Proof.
  intros Hcw Hr.
  rewrite (map_ext_in _
             (fun p => Ok (map (fun i => map (H i) (seq (fst p) (snd p))) (seq r0 h)))).
  - rewrite collect_ok. cbn [bind]. f_equal.
    rewrite <- map_seq_add. unfold hstack.
    apply map_ext_in. intros k Hk. apply in_seq in Hk.
    rewrite map_map.
    rewrite <- (total_blockdims C cw Hcw) at 2.
    apply concat_blocks. intros c0 w Hcol. cbn [fst snd].
    now rewrite nth_map_seq by lia.
  - intros [c0 w] Hcol. cbn [fst snd].
    apply blocks_from_bounds in Hcol. rewrite total_blockdims in Hcol by assumption.
    apply block_value; lia.
Qed.

(** The chunked traversal computes, whatever the chunks, the filter on
    the windows padded by reflection. *)
Lemma map_overlap_reflect (ch cw : nat) :
  0 < ch -> 0 < cw ->
  map_overlap func depth (ch, cw) x = Ok (tabulate R C H).
Proof.
  intros Hch Hcw. unfold map_overlap.
  rewrite (rect_nrows _ _ _ Hx), (rect_ncols _ _ _ Hx) by lia.
  destruct (Nat.eqb_spec ch 0); [lia|]. destruct (Nat.eqb_spec cw 0); [lia|].
  destruct (Nat.ltb_spec R depth); [lia|]. destruct (Nat.ltb_spec C depth); [lia|].
  cbn [orb]. fold padded.
  assert (Hinfer : exists ones, func [[1%float]] = Ok ones)
    by (unfold func; rewrite generic_filter_pure; eauto).
  destruct Hinfer as [ones ->].
  rewrite (map_ext_in _
             (fun p => Ok (map (fun i => map (H i) (seq 0 C)) (seq (fst p) (snd p))))).
  - rewrite collect_ok. cbn [bind]. f_equal. unfold tabulate.
    rewrite <- (total_blockdims R ch Hch) at 2.
    now apply concat_blocks.
  - intros [r0 h] Hrow. cbn [fst snd].
    apply blocks_from_bounds in Hrow. rewrite total_blockdims in Hrow by assumption.
    apply (block_row_value cw r0 h Hcw). lia.
Qed.

(** With a filter that raises, the chunked traversal does not start:
    the call that infers the dtype raises. *)
Lemma map_overlap_raise (e : exn) (ch cw : nat) :
  0 < ch -> 0 < cw ->
  map_overlap
    (fun block =>
       fst (generic_filter (fun (_ : list float) (u : unit) => (Raise e, u))
                           (2 * depth + 1) block tt))
    depth (ch, cw) x
  = Raise DtypeInferenceError.
Proof.
  intros Hch Hcw. unfold map_overlap.
  rewrite (rect_nrows _ _ _ Hx), (rect_ncols _ _ _ Hx) by lia.
  destruct (Nat.eqb_spec ch 0); [lia|]. destruct (Nat.eqb_spec cw 0); [lia|].
  destruct (Nat.ltb_spec R depth); [lia|]. destruct (Nat.ltb_spec C depth); [lia|].
  cbn [orb].
  rewrite (generic_filter_raise e (fun u => u)); [reflexivity | |]; cbn; lia.
Qed.

End Chunked.

(** *** Border invalidation *)

Lemma length_set_nan_row (sel : nat -> bool) (j : nat) (row : list float) :
  length (set_nan_row sel j row) = length row.
Proof.
  revert j; induction row as [|v row IH]; intros j; simpl; trivial. now rewrite IH.
Qed.

Lemma nth_set_nan_row (sel : nat -> bool) (k : nat) (row : list float) (j : nat) :
  nth j (set_nan_row sel k row) np.nan
  = if sel (k + j) then np.nan else nth j row np.nan.
Proof.
  revert k j; induction row as [|v row IH]; intros k j; simpl.
  - destruct j; now destruct (sel _).
  - destruct j as [|j].
    + now rewrite Nat.add_0_r.
    + rewrite IH. now replace (S k + j) with (k + S j) by lia.
Qed.

Lemma length_set_nan (sel : nat -> nat -> bool) (i : nat) (x : grid) :
  length (set_nan sel i x) = length x.
Proof.
  revert i; induction x as [|row x IH]; intros i; simpl; trivial. now rewrite IH.
Qed.

Lemma nth_set_nan (sel : nat -> nat -> bool) (k : nat) (x : grid) (i : nat) :
  nth i (set_nan sel k x) [] = set_nan_row (sel (k + i)) 0 (nth i x []).
Proof.
  revert k i; induction x as [|row x IH]; intros k i; simpl.
  - now destruct i.
  - destruct i as [|i].
    + now rewrite Nat.add_0_r.
    + rewrite IH. now replace (S k + i) with (k + S i) by lia.
Qed.

Lemma get_set_nan (sel : nat -> nat -> bool) (x : grid) (i j : nat) :
  get (set_nan sel 0 x) i j = if sel i j then np.nan else get x i j.
Proof. unfold get. now rewrite nth_set_nan, nth_set_nan_row. Qed.

Lemma rect_set_nan (R C : nat) (sel : nat -> nat -> bool) (x : grid) :
  rect R C x -> rect R C (set_nan sel 0 x).
Proof.
  intros [HR HC]. split.
  - now rewrite length_set_nan.
  - apply Forall_forall. intros row Hin.
    apply (In_nth _ _ []) in Hin as [i [Hi <-]].
    rewrite length_set_nan in Hi.
    rewrite nth_set_nan, length_set_nan_row.
    rewrite Forall_forall in HC. apply HC, nth_In, Hi.
Qed.

Lemma ncols_set_nan (sel : nat -> nat -> bool) (x : grid) :
  ncols (set_nan sel 0 x) = ncols x.
Proof.
  unfold ncols. destruct x as [|row x]; simpl; trivial.
  apply length_set_nan_row.
Qed.

Lemma rect_invalidate_fringe (R C fringeval : nat) (x : grid) :
  rect R C x -> rect R C (invalidate_fringe fringeval x).
Proof.
  intros Hx. unfold invalidate_fringe. now repeat apply rect_set_nan.
Qed.

(** The four assignments together: a cell of the fringe holds NaN, any
    other cell keeps its value. *)
Lemma get_invalidate_fringe (fringeval : nat) (x : grid) (i j : nat) :
  get (invalidate_fringe fringeval x) i j
  = if in_fringe (nrows x) (ncols x) fringeval i j then np.nan else get x i j.
Proof.
  unfold invalidate_fringe, in_fringe.
  rewrite !get_set_nan.
  unfold nrows. rewrite !ncols_set_nan, !length_set_nan.
  destruct (i <? fringeval), (j <? fringeval),
    (length x - fringeval <=? i), (ncols x - fringeval <=? j); reflexivity.
Qed.

(** *** The window-size check *)

Lemma window_check (W : Z) :
  ((W mod 2 =? 0)%Z || (W <? 3)%Z = false) <-> valid_window W.
Proof.
  unfold valid_window. rewrite orb_false_iff, Z.eqb_neq, Z.ltb_ge, Zmod_odd.
  destruct (Z.odd W); intuition (try lia; try discriminate).
Qed.

Lemma window_size_odd (W : Z) :
  valid_window W -> Z.to_nat W = 2 * Z.to_nat (W / 2) + 1.
Proof.
  intros [Hodd H3].
  pose proof (Z.div_mod W 2 ltac:(lia)) as E.
  rewrite Zmod_odd, Hodd in E.
  assert (0 <= W / 2)%Z by (apply Z.div_pos; lia).
  lia.
Qed.

Lemma window_depth_pos (W : Z) : valid_window W -> 1 <= Z.to_nat (W / 2).
Proof.
  intros [Hodd H3].
  assert (1 <= W / 2)%Z by (apply Z.div_le_lower_bound; lia).
  lia.
Qed.

Lemma fringe_width (W : Z) :
  valid_window W -> Z.to_nat (W / 2 + 1) = Z.to_nat (W / 2) + 1.
Proof.
  intros HW. pose proof (window_depth_pos W HW). lia.
Qed.

(** *** Windows that stay inside the array *)

Lemma window_interior (R C depth : nat) (x : grid) (i j : nat) :
  rect R C x -> 0 < R ->
  in_fringe R C (depth + 1) i j = false ->
  window_nearest x (2 * depth + 1) i j = window_reflect x depth i j.
Proof.
  intros Hx HR Hfr. unfold in_fringe in Hfr.
  rewrite !orb_false_iff in Hfr. destruct Hfr as [[[H1 H2] H3] H4].
  apply Nat.ltb_ge in H1, H2. apply Nat.leb_gt in H3, H4.
  unfold window_nearest, window_reflect.
  rewrite (rect_nrows _ _ _ Hx), (rect_ncols _ _ _ Hx) by lia.
  rewrite half_odd, !flat_map_concat_map. f_equal.
  apply map_ext_in. intros a Ha. apply map_ext_in. intros b Hb.
  apply in_seq in Ha, Hb. unfold nearest, reflect_index.
  destruct (Nat.ltb_spec (i + a) depth); [lia|].
  destruct (Nat.ltb_spec (i + a) (depth + R)); [|lia].
  destruct (Nat.ltb_spec (j + b) depth); [lia|].
  destruct (Nat.ltb_spec (j + b) (depth + C)); [|lia].
  f_equal; lia.
Qed.

(* ================================================================== *)
(** * Part IV: the two traversals                                     *)
(* ================================================================== *)

Section Traversals.

Variable hypot : float -> float -> float.
Variable self : RugosityIndex.
Variables (Z : grid) (cell_size : float).

Let W := window_size self.
Let depth := Z.to_nat (W / 2).
Let filter := ratio hypot W cell_size.

Hypothesis HW : valid_window W.

(** The sequential traversal evaluates the filter once per cell, on the
    window padded with the nearest edge sample, and counts each cell. *)
Lemma calculate_rugosity_sequential (pbar : nat) :
  planar_defined W cell_size = true ->
  chunk_processing self = false ->
  calculate_rugosity hypot self Z cell_size pbar
  = (Ok (tabulate (nrows Z) (ncols Z)
           (fun i j => filter (window_nearest Z (2 * depth + 1) i j))),
     nrows Z * ncols Z + pbar).
Proof.
  intros Hplanar Hseq. unfold calculate_rugosity. fold W.
  pose proof HW as Hcheck. apply window_check in Hcheck. rewrite Hcheck, Hseq.
  rewrite (generic_filter_ext _ (fun values n => (Ok (filter values), S n))).
  - rewrite generic_filter_progress.
    unfold depth. now rewrite <- window_size_odd.
  - intros values n. unfold filter. now rewrite rugosity_filter_defined.
Qed.

(** The chunked traversal evaluates the filter on the window padded by
    reflection, for every shape of chunk, and leaves the counter alone. *)
Lemma calculate_rugosity_chunked (R C : nat) (pbar : nat) :
  planar_defined W cell_size = true ->
  chunk_processing self = true ->
  rect R C Z -> depth <= R -> depth <= C ->
  0 < fst (chunksize self) -> 0 < snd (chunksize self) ->
  calculate_rugosity hypot self Z cell_size pbar
  = (Ok (tabulate R C (fun i j => filter (window_reflect Z depth i j))), pbar).
Proof.
  intros Hplanar Hchk HZ HdR HdC Hch Hcw. unfold calculate_rugosity. fold W.
  pose proof HW as Hcheck. apply window_check in Hcheck. rewrite Hcheck, Hchk.
  fold depth. rewrite (window_size_odd W HW). fold depth.
  destruct (chunksize self) as [ch cw]. simpl in Hch, Hcw.
  rewrite <- (map_overlap_reflect filter R C depth Z HZ (window_depth_pos W HW) HdR HdC
                ch cw Hch Hcw).
  f_equal. apply map_overlap_ext. intros block. f_equal.
  apply generic_filter_ext. intros values u.
  unfold filter. now rewrite rugosity_filter_defined.
Qed.

(** When the filter raises, the sequential traversal raises at the first
    window, which it has counted. *)
Lemma calculate_rugosity_sequential_raises (e : exn) (pbar : nat) :
  (forall values, rugosity_filter hypot W cell_size values = Raise e) ->
  chunk_processing self = false ->
  0 < nrows Z -> 0 < ncols Z ->
  calculate_rugosity hypot self Z cell_size pbar = (Raise e, S pbar).
Proof.
  intros He Hseq HR HC. unfold calculate_rugosity. fold W.
  pose proof HW as Hcheck. apply window_check in Hcheck. rewrite Hcheck, Hseq.
  rewrite (generic_filter_ext _ (fun _ n => (Raise e, S n))).
  - now apply (generic_filter_raise e S).
  - intros values n. now rewrite He.
Qed.

(** When the filter raises, the chunked traversal raises dask's error. *)
Lemma calculate_rugosity_chunked_raises (e : exn) (R C : nat) (pbar : nat) :
  (forall values, rugosity_filter hypot W cell_size values = Raise e) ->
  chunk_processing self = true ->
  rect R C Z -> depth <= R -> depth <= C ->
  0 < fst (chunksize self) -> 0 < snd (chunksize self) ->
  calculate_rugosity hypot self Z cell_size pbar = (Raise DtypeInferenceError, pbar).
Proof.
  intros He Hchk HZ HdR HdC Hch Hcw. unfold calculate_rugosity. fold W.
  pose proof HW as Hcheck. apply window_check in Hcheck. rewrite Hcheck, Hchk.
  fold depth. rewrite (window_size_odd W HW). fold depth.
  destruct (chunksize self) as [ch cw]. simpl in Hch, Hcw.
  rewrite <- (map_overlap_raise R C depth Z HZ (window_depth_pos W HW) HdR HdC e ch cw);
    trivial.
  f_equal. apply map_overlap_ext. intros block. f_equal.
  apply generic_filter_ext. intros values u. now rewrite He.
Qed.

End Traversals.

Lemma rect_tabulate_shape (R C : nat) (x : grid) (h : nat -> nat -> float) :
  rect R C x -> rect R C (tabulate (nrows x) (ncols x) h).
Proof.
  intros Hx. rewrite (rect_nrows _ _ _ Hx).
  destruct R as [|R].
  - split; [reflexivity | constructor].
  - rewrite (rect_ncols _ _ _ Hx) by lia. apply rect_tabulate.
Qed.

Lemma rect_same_shape (R C : nat) (x out : grid) :
  rect R C x -> rect (nrows x) (ncols x) out -> rect R C out.
Proof.
  intros Hx Hout. rewrite (rect_nrows _ _ _ Hx) in Hout.
  destruct R as [|R].
  - destruct Hout as [Hlen _]. apply length_zero_iff_nil in Hlen. subst out.
    split; [reflexivity | constructor].
  - now rewrite (rect_ncols _ _ _ Hx) in Hout by lia.
Qed.

(** A run of either processor that returns, returns an array of the shape
    of its input. *)
Lemma calculate_rugosity_shape
      (hypot : float -> float -> float) (self : RugosityIndex) (elev : grid)
      (cell_size : float) (R C : nat) (pbar pbar' : nat) (result : grid) :
  valid_window (window_size self) -> rect R C elev ->
  (chunk_processing self = true ->
   Z.to_nat (window_size self / 2) <= R /\ Z.to_nat (window_size self / 2) <= C
   /\ valid_tile (chunksize self)) ->
  calculate_rugosity hypot self elev cell_size pbar = (Ok result, pbar') ->
  rect R C result.
Proof.
  intros HW Hx Hchunk E.
  destruct (chunk_processing self) eqn:Hmode.
  - destruct (Hchunk eq_refl) as (HdR & HdC & Hch & Hcw).
    destruct (planar_defined (window_size self) cell_size) eqn:Hplanar.
    + rewrite (calculate_rugosity_chunked hypot self elev cell_size HW R C) in E by trivial.
      injection E as <- _. apply rect_tabulate.
    + destruct (rugosity_filter_raises _ _ Hplanar) as [e He].
      rewrite (calculate_rugosity_chunked_raises hypot self elev cell_size HW e R C) in E
        by trivial.
      discriminate E.
  - unfold calculate_rugosity in E.
    apply window_check in HW. rewrite HW, Hmode in E.
    apply generic_filter_shape in E. now apply (rect_same_shape R C elev).
Qed.

(** When the planar area is defined, a run of either processor returns. *)
Lemma calculate_rugosity_returns
      (hypot : float -> float -> float) (self : RugosityIndex) (elev : grid)
      (cell_size : float) (R C : nat) (pbar : nat) :
  valid_window (window_size self) -> rect R C elev ->
  (chunk_processing self = true ->
   Z.to_nat (window_size self / 2) <= R /\ Z.to_nat (window_size self / 2) <= C
   /\ valid_tile (chunksize self)) ->
  planar_defined (window_size self) cell_size = true ->
  exists result pbar',
    calculate_rugosity hypot self elev cell_size pbar = (Ok result, pbar').
Proof.
  intros HW Hx Hchunk Hplanar.
  destruct (chunk_processing self) eqn:Hmode.
  - destruct (Hchunk eq_refl) as (HdR & HdC & Hch & Hcw).
    rewrite (calculate_rugosity_chunked hypot self elev cell_size HW R C) by trivial.
    eauto.
  - rewrite (calculate_rugosity_sequential hypot self elev cell_size HW) by trivial.
    eauto.
Qed.

Lemma nearest_reflect_depth1 (n k : nat) :
  0 < n -> k < n + 2 -> nearest n k 1 = reflect_index n 1 k.
Proof.
  intros Hn Hk. unfold nearest, reflect_index.
  destruct (Nat.ltb_spec k 1); [lia|].
  destruct (Nat.ltb_spec k (1 + n)); lia.
Qed.

(** With a window of size 3 the two padding policies read the same
    samples. *)
Lemma window_nearest_reflect_3 (R C : nat) (x : grid) (i j : nat) :
  rect R C x -> 0 < C -> i < R -> j < C ->
  window_nearest x 3 i j = window_reflect x 1 i j.
Proof.
  intros Hx HC Hi Hj. unfold window_nearest, window_reflect.
  rewrite (rect_nrows _ _ _ Hx), (rect_ncols _ _ _ Hx) by lia.
  change (3 / 2) with 1. change (2 * 1 + 1) with 3.
  rewrite !flat_map_concat_map. f_equal.
  apply map_ext_in. intros a Ha. apply map_ext_in. intros b Hb.
  apply in_seq in Ha, Hb.
  rewrite !nearest_reflect_depth1 by lia. reflexivity.
Qed.

Lemma float_neq (x y : float) : (x =? y)%float = false -> (x =? x)%float = true -> x <> y.
Proof. intros Hxy Hxx E. rewrite <- E in Hxy. congruence. Qed.




(** C5: for every valid window size, whichever processor runs, a run of
    the analysis that completes returns a grid of the shape of the input
    in which every cell within [W / 2 + 1] of one of the four edges is
    NaN; and the run completes whenever the planar area
    [((W - 1) * cell_size) ** 2] neither overflows nor is zero.  (The
    chunked processor is run on a grid it accepts and with a valid chunk
    shape.) *)
Theorem fringe_is_nan
        (hypot : float -> float -> float) (self : RugosityIndex) (elev : grid)
        (cell_size : float) (R C : nat) (pbar : nat) :
  valid_window (window_size self) -> rect R C elev ->
  (chunk_processing self = true ->
   Z.to_nat (window_size self / 2) <= R /\ Z.to_nat (window_size self / 2) <= C
   /\ valid_tile (chunksize self)) ->
  (planar_defined (window_size self) cell_size = true ->
   exists out, returned (analyze hypot self elev cell_size pbar) = Some out)
  /\ forall out,
       returned (analyze hypot self elev cell_size pbar) = Some out ->
       rect R C out
       /\ forall i j, i < R -> j < C ->
            in_fringe R C (Z.to_nat (window_size self / 2 + 1)) i j = true ->
            np.isnan (get out i j) = true.
Proof.
  intros HW Hx Hchunk. split.
  - intros Hplanar.
    destruct (calculate_rugosity_returns hypot self elev cell_size R C pbar
                HW Hx Hchunk Hplanar) as (result & p & E).
    unfold returned, analyze. rewrite E. eexists. reflexivity.
  - intros out. unfold returned, analyze.
    destruct (calculate_rugosity hypot self elev cell_size pbar) as [[result|e] p] eqn:E;
      [|discriminate].
    cbn [fst]. intros [= <-].
    pose proof (calculate_rugosity_shape hypot self elev cell_size R C pbar p result
                  HW Hx Hchunk E) as Hshape.
    split.
    + now apply rect_invalidate_fringe.
    + intros i j Hi Hj Hfr. rewrite get_invalidate_fringe.
      rewrite (rect_nrows _ _ _ Hshape), (rect_ncols _ _ _ Hshape) by lia.
      now rewrite Hfr.
Qed.

Lemma fringe_is_nan_witness :
  (planar_defined 5 1%float = true ->
   exists out,
     returned (analyze hypot_ref (chunked 5 (4, 4)) (repeat (repeat 10%float 9) 8) 1%float 0)
     = Some out)
  /\ forall out,
       returned (analyze hypot_ref (chunked 5 (4, 4)) (repeat (repeat 10%float 9) 8) 1%float 0)
       = Some out ->
       rect 8 9 out
       /\ forall i j, i < 8 -> j < 9 ->
            in_fringe 8 9 (Z.to_nat (5 / 2 + 1)) i j = true ->
            np.isnan (get out i j) = true.
Proof.
  apply (fringe_is_nan hypot_ref (chunked 5 (4, 4)) _ 1%float 8 9 0).
  - split; [reflexivity | cbn; lia].
  - split; [reflexivity | repeat constructor].
  - intros _. vm_compute. repeat split; lia.
Defined.

(** C6, amended: for every window size that is even or below 3, the
    analysis raises before any window is evaluated: whatever the grid, the
    cell size, the processor and the platform's [hypot], the run returns
    the error and leaves the progress count as it found it. *)
Theorem invalid_window_fails_fast
        (hypot : float -> float -> float) (self : RugosityIndex) (elev : grid)
        (cell_size : float) (pbar : nat) :
  (Z.even (window_size self) = true \/ window_size self < 3)%Z ->
  calculate_rugosity hypot self elev cell_size pbar = (Raise WindowSizeError, pbar)
  /\ analyze hypot self elev cell_size pbar = (Raise WindowSizeError, pbar)
  /\ fails_fast (analyze hypot self elev cell_size pbar) pbar.
Proof.
  intros Hbad.
  assert (Hcheck : (window_size self mod 2 =? 0)%Z || (window_size self <? 3)%Z = true).
  { apply orb_true_iff. destruct Hbad as [Heven|Hlt].
    - left. apply Z.eqb_eq. now rewrite Zmod_even, Heven.
    - right. now apply Z.ltb_lt. }
  assert (Hc : calculate_rugosity hypot self elev cell_size pbar
               = (Raise WindowSizeError, pbar))
    by (unfold calculate_rugosity; now rewrite Hcheck).
  split; [exact Hc|].
  assert (Ha : analyze hypot self elev cell_size pbar = (Raise WindowSizeError, pbar))
    by (unfold analyze; now rewrite Hc).
  split; [exact Ha|]. exists WindowSizeError. exact Ha.
Qed.

Lemma invalid_window_fails_fast_witness :
  calculate_rugosity hypot_ref (sequential 4) (repeat (repeat 10%float 7) 7) 1%float 0
  = (Raise WindowSizeError, 0)
  /\ analyze hypot_ref (sequential 4) (repeat (repeat 10%float 7) 7) 1%float 0
     = (Raise WindowSizeError, 0)
  /\ fails_fast (analyze hypot_ref (sequential 4) (repeat (repeat 10%float 7) 7) 1%float 0) 0.
Proof.
  apply (invalid_window_fails_fast hypot_ref (sequential 4)). left. reflexivity.
Defined.

(** C6, as stated, fails on a grid smaller than the window: a 2 x 2 grid
    with [window_size = 3] is traversed by the sequential processor (four
    windows are evaluated) and by the chunked one, and a grid is
    returned. *)
Lemma small_grid_is_processed :
  analyze hypot_ref (sequential 3) [[1; 2]; [3; 4]]%float 1%float 0
  = (Ok [[nan; nan]; [nan; nan]]%float, 4)
  /\ ~ fails_fast (analyze hypot_ref (sequential 3) [[1; 2]; [3; 4]]%float 1%float 0) 0
  /\ ~ fails_fast (analyze hypot_ref (chunked 3 (512, 512)) [[1; 2]; [3; 4]]%float 1%float 0) 0.
Proof.
  assert (E : analyze hypot_ref (sequential 3) [[1; 2]; [3; 4]]%float 1%float 0
              = (Ok [[nan; nan]; [nan; nan]]%float, 4)) by (vm_compute; reflexivity).
  assert (E' : analyze hypot_ref (chunked 3 (512, 512)) [[1; 2]; [3; 4]]%float 1%float 0
               = (Ok [[nan; nan]; [nan; nan]]%float, 0)) by (vm_compute; reflexivity).
  split; [exact E|]. split.
  - intros [e He]. rewrite E in He. discriminate He.
  - intros [e He]. rewrite E' in He. discriminate He.
Qed.

(** C7, amended: the samples a window would read outside the grid are
    supplied by reflection only in the chunked processor.  The sequential
    processor repeats the nearest edge sample ([mode='nearest']); the two
    policies read the same samples when [window_size = 3].  (The raw
    outputs are those of runs that return: the planar area neither
    overflows nor is zero.) *)
Theorem padding_policies
        (hypot : float -> float -> float) (W : Z) (elev : grid) (cell_size : float)
        (R C : nat) (pbar : nat) :
  valid_window W -> rect R C elev -> 0 < R -> 0 < C ->
  planar_defined W cell_size = true ->
  let depth := Z.to_nat (W / 2) in
  let filter := ratio hypot W cell_size in
  (exists out,
      fst (calculate_rugosity hypot (sequential W) elev cell_size pbar) = Ok out
      /\ forall i j, i < R -> j < C ->
           get out i j = filter (window_nearest elev (2 * depth + 1) i j))
  /\ (forall tile, valid_tile tile -> depth <= R -> depth <= C ->
      exists out,
        fst (calculate_rugosity hypot (chunked W tile) elev cell_size pbar) = Ok out
        /\ forall i j, i < R -> j < C ->
             get out i j = filter (window_reflect elev depth i j))
  /\ (W = 3%Z ->
      forall i j, i < R -> j < C ->
        window_nearest elev (2 * depth + 1) i j = window_reflect elev depth i j).
Proof.
  intros HW Hx HR HC Hplanar depth filter. split; [|split].
  - rewrite (calculate_rugosity_sequential hypot (sequential W) elev cell_size HW)
      by (trivial; reflexivity).
    eexists. split; [reflexivity|]. intros i j Hi Hj.
    rewrite (rect_nrows _ _ _ Hx), (rect_ncols _ _ _ Hx) by assumption.
    now rewrite get_tabulate.
  - intros [ch cw] [Hch Hcw] HdR HdC.
    rewrite (calculate_rugosity_chunked hypot (chunked W (ch, cw)) elev cell_size HW R C)
      by (trivial; reflexivity).
    eexists. split; [reflexivity|]. intros i j Hi Hj.
    now rewrite get_tabulate.
  - intros -> i j Hi Hj. now apply (window_nearest_reflect_3 R C).
Qed.

Lemma padding_policies_witness :
  let elev := repeat (repeat 10%float 7) 7 in
  let depth := Z.to_nat (3 / 2) in
  let filter := ratio hypot_ref 3 1%float in
  (exists out,
      fst (calculate_rugosity hypot_ref (sequential 3) elev 1%float 0) = Ok out
      /\ forall i j, i < 7 -> j < 7 ->
           get out i j = filter (window_nearest elev (2 * depth + 1) i j))
  /\ (forall tile, valid_tile tile -> depth <= 7 -> depth <= 7 ->
      exists out,
        fst (calculate_rugosity hypot_ref (chunked 3 tile) elev 1%float 0) = Ok out
        /\ forall i j, i < 7 -> j < 7 ->
             get out i j = filter (window_reflect elev depth i j))
  /\ (3%Z = 3%Z ->
      forall i j, i < 7 -> j < 7 ->
        window_nearest elev (2 * depth + 1) i j = window_reflect elev depth i j).
Proof.
  apply (padding_policies hypot_ref 3 (repeat (repeat 10%float 7) 7) 1%float 7 7 0).
  - split; [reflexivity | lia].
  - split; [reflexivity | repeat constructor].
  - lia.
  - lia.
  - reflexivity.
Defined.

(** C7, as stated, fails for the sequential processor: with
    [window_size = 5] the window of the corner cell reads two rows above
    the grid; repeating row 0 and mirroring rows 1, 0 give different
    windows, and the raw output at the corner is the filter on the
    former. *)
Lemma sequential_pads_with_nearest :
  let elev := [[0; 0; 4; 0; 0]; [0; 0; 0; 0; 0]; [0; 0; 0; 0; 0];
               [0; 0; 0; 0; 0]; [0; 0; 0; 0; 0]]%float in
  ~ sequential_reflects hypot_ref 5 elev 3%float.
Proof.
  intros elev Hclaim.
  destruct (calculate_rugosity hypot_ref (sequential 5) elev 3%float 0)
    as [[out|e] pbar] eqn:E; vm_compute in E; [|discriminate E].
  injection E as <- <-.
  specialize (Hclaim _ _ eq_refl 0 0).
  revert Hclaim. vm_compute. intros Hclaim.
  assert (Hcell : 0 < 5) by lia.
  specialize (Hclaim Hcell Hcell). apply Ok_inj in Hclaim.
  revert Hclaim. apply float_neq; vm_compute; reflexivity.
Qed.

(* ================================================================== *)
(** * Part V: the surface-area estimator                              *)
(* ================================================================== *)

Lemma fold_left_map {A B X} (f : B -> A -> B) (h : X -> A) (l : list X) (b : B) :
  fold_left f (map h l) b = fold_left (fun acc x => f acc (h x)) l b.
Proof.
  revert b; induction l as [|x l IH]; intros b; simpl; trivial.
Qed.

Lemma center_of_odd_window (W : nat) :
  Nat.odd W = true -> W * W / 2 = window_center W.
Proof.
  intros H. unfold window_center.
  apply Nat.odd_spec in H as [k ->]. rewrite half_odd.
  symmetry. apply (Nat.div_unique _ _ _ 1); [lia|]. nia.
Qed.

(** On a non-empty array, every index the estimator reads is inside. *)
Lemma estimator_reads_in_range (values : list float) :
  values <> [] ->
  let window_size := np.int_sqrt (length values) in
  length values / 2 < length values
  /\ forall i j, i < window_size - 1 -> j < window_size - 1 ->
       i * window_size + j + 1 < length values.
Proof.
  intros Hne ws.
  assert (Hlen : 0 < length values) by (destruct values; simpl; [congruence|lia]).
  split.
  - apply Nat.div_lt; lia.
  - intros i j Hi Hj.
    pose proof (Nat.sqrt_specif (length values)) as [Hlo _]. fold ws in Hlo.
    unfold ws, np.int_sqrt in *. nia.
Qed.

(** The sweep visits [(W - 1) * (W - 1)] cells. *)
Lemma swept_cells_length (W : nat) : length (swept_cells W) = (W - 1) * (W - 1).
Proof.
  unfold swept_cells.
  assert (H : forall rows : list nat,
             length (flat_map (fun i => map (fun j => i * W + j) (seq 0 (W - 1))) rows)
             = length rows * (W - 1)).
  { induction rows as [|i rows IH]; simpl; trivial.
    now rewrite length_app, length_map, length_seq, IH. }
  now rewrite H, length_seq.
Qed.

(** *** The sweep, by increasing flattened index

    The swept cells are the cells outside the last row and the last
    column, each once, in the order of their flattened indices. *)

Lemma filter_all {A} (p : A -> bool) (l : list A) :
  (forall x, In x l -> p x = true) -> filter p l = l.
Proof.
  induction l as [|x l IH]; intros H; simpl; trivial.
  rewrite (H x) by now left. f_equal. apply IH. intros y Hy. apply H. now right.
Qed.

Lemma filter_none {A} (p : A -> bool) (l : list A) :
  (forall x, In x l -> p x = false) -> filter p l = [].
Proof.
  induction l as [|x l IH]; intros H; simpl; trivial.
  rewrite (H x) by now left. apply IH. intros y Hy. apply H. now right.
Qed.

Lemma filter_map_comm {A B} (p : B -> bool) (g : A -> B) (l : list A) :
  filter p (map g l) = map g (filter (fun x => p (g x)) l).
Proof.
  induction l as [|x l IH]; simpl; trivial.
  destruct (p (g x)); simpl; now rewrite IH.
Qed.

Lemma filter_flat_map {A B} (p : B -> bool) (g : A -> list B) (l : list A) :
  filter p (flat_map g l) = flat_map (fun x => filter p (g x)) l.
Proof.
  induction l as [|x l IH]; simpl; trivial.
  now rewrite filter_app, IH.
Qed.

Lemma seq_as_map (a n : nat) : seq a n = map (fun j => a + j) (seq 0 n).
Proof.
  revert a; induction n as [|n IH]; intros a; simpl; trivial.
  rewrite Nat.add_0_r. f_equal.
  rewrite <- (seq_shift n 0), map_map, (IH (S a)). apply map_ext. intros j. lia.
Qed.

Lemma seq_rows (W n : nat) :
  seq 0 (n * W) = flat_map (fun i => map (fun j => i * W + j) (seq 0 W)) (seq 0 n).
Proof.
  induction n as [|n IH].
  - reflexivity.
  - rewrite seq_S, flat_map_app. simpl flat_map. rewrite app_nil_r, <- IH.
    replace (S n * W) with (n * W + W) by lia. rewrite seq_app. f_equal.
    apply seq_as_map.
Qed.

Lemma inner_cell_at (W i j : nat) :
  j < S W -> inner_cell (S W) (i * S W + j) = (i <? W) && (j <? W).
Proof.
  intros Hj. unfold inner_cell.
  rewrite Nat.div_add_l, Nat.div_small, Nat.add_0_r by lia.
  rewrite Nat.add_comm, Nat.Div0.mod_add, Nat.mod_small by lia.
  now replace (S W - 1) with W by lia.
Qed.

Lemma swept_cells_filter (W : nat) :
  swept_cells W = filter (inner_cell W) (seq 0 (W * W)).
Proof.
  destruct W as [|W]; [reflexivity|].
  unfold swept_cells. replace (S W - 1) with W by lia.
  rewrite (seq_rows (S W) (S W)), filter_flat_map.
  set (row := fun i => filter (inner_cell (S W))
                         (map (fun j => i * S W + j) (seq 0 (S W)))).
  rewrite (seq_S W 0), flat_map_app. cbn [flat_map].
  assert (Hlast : row (0 + W) = []).
  { unfold row. apply filter_none. intros idx Hin.
    apply in_map_iff in Hin as [j [<- Hj]]. apply in_seq in Hj.
    rewrite inner_cell_at by lia. simpl. now rewrite Nat.ltb_irrefl. }
  rewrite Hlast, !app_nil_r, !flat_map_concat_map. f_equal.
  apply map_ext_in. intros i Hi. apply in_seq in Hi. unfold row.
  rewrite filter_map_comm. f_equal.
  rewrite (seq_S W 0), filter_app. cbn [filter].
  rewrite inner_cell_at by lia. simpl (0 + W).
  rewrite Nat.ltb_irrefl, andb_false_r, app_nil_r.
  symmetry. apply filter_all. intros j Hj. apply in_seq in Hj.
  rewrite inner_cell_at by lia. apply andb_true_iff. split; apply Nat.ltb_lt; lia.
Qed.

(** C2: on a flattened window of odd side [W], the estimator is the sweep
    of the specification: the cells outside the last row and the last
    column, [(W - 1) * (W - 1)] of them, by increasing flattened index (row
    by row); for each swept index the three edges from [hypot], Heron's
    formula with the absolute value under the root, guarded by the
    fallback, and eight times that area added to the total, the centre
    being the sample of row [W / 2], column [W / 2]. *)
Theorem estimator_is_sweep
        (hypot : float -> float -> float) (W : nat) (values : list float)
        (cell_size : float) :
  Nat.odd W = true -> length values = W * W ->
  compute_triangle_areas hypot values cell_size
  = spec_surface_area hypot W values cell_size
  /\ swept_cells W = filter (inner_cell W) (seq 0 (W * W))
  /\ length (swept_cells W) = (W - 1) * (W - 1).
Proof.
  intros Hodd Hlen. split; [|split].
  - unfold compute_triangle_areas, spec_surface_area, swept_cells.
    rewrite Hlen. unfold np.int_sqrt. rewrite Nat.sqrt_square.
    rewrite (center_of_odd_window W Hodd), fold_left_flat_map.
    apply fold_left_ext_in. intros total i _.
    rewrite fold_left_map. reflexivity.
  - apply swept_cells_filter.
  - apply swept_cells_length.
Qed.

Lemma estimator_is_sweep_witness :
  compute_triangle_areas hypot_ref [1; 2; 3; 4; 5; 6; 7; 8; 9]%float 1%float
  = spec_surface_area hypot_ref 3 [1; 2; 3; 4; 5; 6; 7; 8; 9]%float 1%float
  /\ swept_cells 3 = filter (inner_cell 3) (seq 0 (3 * 3))
  /\ length (swept_cells 3) = (3 - 1) * (3 - 1).
Proof.
  apply (estimator_is_sweep hypot_ref 3 [1; 2; 3; 4; 5; 6; 7; 8; 9]%float 1%float);
    reflexivity.
Defined.

(** C9: the estimator does not depend on the last row of the window: two
    windows of side [W >= 3] that agree on all rows but the last have the
    same estimated area. *)
Theorem last_row_is_ignored
        (hypot : float -> float -> float) (W : nat) (values values' : list float)
        (cell_size : float) :
  3 <= W -> length values = W * W -> length values' = W * W ->
  (forall k, k < (W - 1) * W -> np.getitem values k = np.getitem values' k) ->
  compute_triangle_areas hypot values cell_size
  = compute_triangle_areas hypot values' cell_size.
Proof.
  intros HW Hlen Hlen' Hagree. unfold compute_triangle_areas.
  rewrite Hlen, Hlen'. unfold np.int_sqrt. rewrite Nat.sqrt_square.
  assert (Hc : W * W / 2 < (W - 1) * W)
    by (apply Nat.Div0.div_lt_upper_bound; nia).
  rewrite (Hagree _ Hc).
  apply fold_left_ext_in. intros total i Hi.
  apply fold_left_ext_in. intros total' j Hj.
  apply in_seq in Hi, Hj. unfold loop_body.
  rewrite (Hagree (i * W + j)), (Hagree (i * W + j + 1)) by nia.
  reflexivity.
Qed.

Lemma last_row_is_ignored_witness :
  compute_triangle_areas hypot_ref [1; 2; 3; 4; 5; 6; 7; 8; 9]%float 1%float
  = compute_triangle_areas hypot_ref [1; 2; 3; 4; 5; 6; 70; 80; 90]%float 1%float.
Proof.
  apply (last_row_is_ignored hypot_ref 3); try reflexivity; try lia.
  intros k Hk.
  do 6 (destruct k as [|k]; [reflexivity|]). cbn in Hk. lia.
Defined.

(* ================================================================== *)
(** * Part VI: binary64 arithmetic                                    *)
(* ================================================================== *)

(** ** Rounding keeps the sign

    The operations of [spec_float] round a signed mantissa; a mantissa
    that is not negative is rounded to a zero, a finite number or an
    infinity of the sign asked for, never to a NaN. *)

Section Rounding.
Variables prec emax : Z.

Lemma shr_1_nonneg mrs : (0 <= shr_m mrs)%Z -> (0 <= shr_m (shr_1 mrs))%Z.
Proof.
  destruct mrs as [m r s]. destruct m as [|p|p]; simpl; try lia.
  - destruct p; simpl; lia.
Qed.

Lemma iter_shr_1_nonneg p : forall mrs,
  (0 <= shr_m mrs)%Z -> (0 <= shr_m (SpecFloat.iter_pos shr_1 p mrs))%Z.
Proof.
  induction p as [p IH|p IH|]; intros mrs H; simpl.
  - apply IH, IH, shr_1_nonneg, H.
  - apply IH, IH, H.
  - apply shr_1_nonneg, H.
Qed.

Lemma shr_fexp_nonneg m e l :
  (0 <= m)%Z -> (0 <= shr_m (fst (shr_fexp prec emax m e l)))%Z.
Proof.
  intros H. unfold shr_fexp, shr.
  assert (H0 : (0 <= shr_m (shr_record_of_loc m l))%Z)
    by (destruct l as [|[]]; exact H).
  destruct (fexp prec emax (Zdigits2 m + e) - e)%Z; simpl; trivial.
  now apply iter_shr_1_nonneg.
Qed.

Lemma round_nearest_even_nonneg m l :
  (0 <= m)%Z -> (0 <= round_nearest_even m l)%Z.
Proof.
  intros H. unfold round_nearest_even.
  destruct l as [|[]]; try destruct (Z.even m); lia.
Qed.

Lemma binary_round_aux_sign s mx ex lx :
  (0 <= mx)%Z -> SFsign_is s (binary_round_aux prec emax s mx ex lx) = true.
Proof.
  intros H. unfold binary_round_aux.
  pose proof (shr_fexp_nonneg mx ex lx H) as H1.
  destruct (shr_fexp prec emax mx ex lx) as [mrs' e']. simpl in H1.
  pose proof (shr_fexp_nonneg _ e' loc_Exact
                (round_nearest_even_nonneg _ (loc_of_shr_record mrs') H1)) as H2.
  destruct (shr_fexp prec emax _ e' loc_Exact) as [mrs'' e'']. simpl in H2.
  destruct (shr_m mrs'') as [|p|p]; simpl.
  - apply eqb_reflx.
  - destruct (e'' <=? emax - prec)%Z; simpl; apply eqb_reflx.
  - lia.
Qed.

Lemma binary_round_sign s m e :
  SFsign_is s (binary_round prec emax s m e) = true.
Proof.
  unfold binary_round. destruct (shl_align _ _ _) as [mz ez].
  apply binary_round_aux_sign. lia.
Qed.

Lemma sign_nonneg x : SFsign_is false x = true -> SFnonneg x = true.
Proof. destruct x as [s|s| |s m e]; simpl; trivial; now destruct s. Qed.

Lemma SFmul_self_nonneg x : x <> S754_nan -> SFnonneg (SFmul prec emax x x) = true.
Proof.
  intros Hx. destruct x as [s|s| |s m e]; simpl; try congruence;
    rewrite ?xorb_nilpotent; trivial.
  apply sign_nonneg, binary_round_aux_sign. lia.
Qed.

Lemma SFmul_finite_nonneg x m e :
  SFnonneg x = true -> SFnonneg (SFmul prec emax x (S754_finite false m e)) = true.
Proof.
  destruct x as [s|s| |s mx ex]; simpl; try discriminate; trivial.
  - now rewrite xorb_false_r.
  - intros Hs. apply negb_true_iff in Hs. subst s.
    apply sign_nonneg, binary_round_aux_sign. lia.
Qed.

Lemma SFdiv_core_nonneg mx ex my ey :
  (0 <= fst (fst (SFdiv_core_binary prec emax (Zpos mx) ex (Zpos my) ey)))%Z.
Proof.
  unfold SFdiv_core_binary.
  set (s := (ex - ey - _)%Z).
  set (m' := match s with Zpos _ => Z.shiftl (Zpos mx) s | Z0 => Zpos mx | Zneg _ => 0%Z end).
  assert (Hm : (0 <= m')%Z).
  { unfold m'. destruct s; try lia. apply Z.shiftl_nonneg. lia. }
  pose proof (Z.div_pos m' (Zpos my) Hm ltac:(lia)) as Hq.
  unfold Z.div in Hq. destruct (Z.div_eucl m' (Zpos my)) as [q r]. exact Hq.
Qed.

Lemma SFdiv_finite_nonneg x m e :
  SFnonneg x = true -> SFnonneg (SFdiv prec emax x (S754_finite false m e)) = true.
Proof.
  destruct x as [s|s| |s mx ex]; simpl; try discriminate; trivial.
  - now rewrite xorb_false_r.
  - intros Hs. apply negb_true_iff in Hs. subst s.
    pose proof (SFdiv_core_nonneg mx ex m e) as H.
    destruct (SFdiv_core_binary prec emax (Zpos mx) ex (Zpos m) e) as [[mz ez] lz].
    apply sign_nonneg, binary_round_aux_sign. exact H.
Qed.

Lemma SFadd_nonneg x y :
  SFnonneg x = true -> SFnonneg y = true -> SFnonneg (SFadd prec emax x y) = true.
Proof.
  destruct x as [sx|sx| |sx mx ex], y as [sy|sy| |sy my ey]; simpl;
    try discriminate; trivial; intros Hx Hy;
    try (apply negb_true_iff in Hx; subst sx);
    try (apply negb_true_iff in Hy; subst sy); trivial.
  - now destruct sx, sy.
  - cbn [cond_Zopp Z.add]. unfold binary_normalize.
    apply sign_nonneg, binary_round_sign.
Qed.

End Rounding.

Open Scope float_scope.

(** Case analysis on the class and the sign of a binary64 number. *)
Ltac classify x :=
  destruct (Prim2SF x) as [[|]|[|]| |[|] ? ?]; try discriminate.

Lemma is_nan_SF x : is_nan x = true <-> Prim2SF x = S754_nan.
Proof.
  unfold is_nan. rewrite FloatAxioms.eqb_spec.
  destruct (Prim2SF x) as [s|s| |s m e]; cbn; try (destruct s); cbn;
    split; try discriminate; try reflexivity.
  all: rewrite ?Z.compare_refl, ?Pos.compare_cont_refl; cbn; discriminate.
Qed.

Lemma is_nan_false_SF x : is_nan x = false <-> Prim2SF x <> S754_nan.
Proof.
  rewrite <- is_nan_SF. destruct (is_nan x); split; congruence.
Qed.

Lemma nonneg_SF x : nonneg x = SFnonneg (Prim2SF x).
Proof.
  unfold nonneg. rewrite leb_spec.
  change (Prim2SF 0) with (S754_zero false).
  classify x; reflexivity.
Qed.

Lemma nonneg_not_nan x : nonneg x = true -> is_nan x = false.
Proof.
  rewrite nonneg_SF. intros H. apply is_nan_false_SF. intros E. now rewrite E in H.
Qed.

Lemma guard_nonneg x : is_nan x || (x <=? 0) = false -> nonneg x = true.
Proof.
  intros H. apply orb_false_iff in H as [Hn Hle].
  apply is_nan_false_SF in Hn. rewrite leb_spec in Hle.
  change (Prim2SF 0) with (S754_zero false) in Hle.
  rewrite nonneg_SF.
  classify x; trivial; congruence.
Qed.

Lemma nonneg_square x : is_nan x = false -> nonneg (x * x) = true.
Proof.
  intros H. rewrite nonneg_SF, mul_spec. apply SFmul_self_nonneg.
  now apply is_nan_false_SF.
Qed.

Lemma nonneg_half x : nonneg x = true -> nonneg (x / 2) = true.
Proof.
  rewrite !nonneg_SF, div_spec. intros H.
  change (Prim2SF 2) with (S754_finite false 4503599627370496 (-51)).
  now apply SFdiv_finite_nonneg.
Qed.

Lemma nonneg_times8 x : nonneg x = true -> nonneg (x * 8) = true.
Proof.
  rewrite !nonneg_SF, mul_spec. intros H.
  change (Prim2SF 8) with (S754_finite false 4503599627370496 (-49)).
  now apply SFmul_finite_nonneg.
Qed.

Lemma nonneg_add x y : nonneg x = true -> nonneg y = true -> nonneg (x + y) = true.
Proof.
  rewrite !nonneg_SF, add_spec. apply SFadd_nonneg.
Qed.

Lemma nonneg_div x y :
  nonneg x = true -> (0 <? y) = true -> (y <? infinity) = true -> nonneg (x / y) = true.
Proof.
  rewrite !nonneg_SF, div_spec, !ltb_spec.
  change (Prim2SF 0) with (S754_zero false).
  change (Prim2SF infinity) with (S754_infinity false).
  intros Hx H0 Hinf.
  classify y.
  now apply SFdiv_finite_nonneg.
Qed.

Lemma is_nan_eq x : is_nan x = true -> x = nan.
Proof. intros H. apply Prim2SF_inj. now apply is_nan_SF in H. Qed.

Lemma nan_sub_l y : (nan - y) = nan.
Proof. apply Prim2SF_inj. rewrite sub_spec. reflexivity. Qed.

Lemma nan_sub_r x : (x - nan) = nan.
Proof.
  apply Prim2SF_inj. rewrite sub_spec.
  change (Prim2SF nan) with S754_nan. now destruct (Prim2SF x).
Qed.

Lemma nan_add_l y : (nan + y) = nan.
Proof. apply Prim2SF_inj. rewrite add_spec. reflexivity. Qed.

Lemma nan_add_r x : (x + nan) = nan.
Proof.
  apply Prim2SF_inj. rewrite add_spec.
  change (Prim2SF nan) with S754_nan. now destruct (Prim2SF x).
Qed.

Lemma nan_mul_l y : (nan * y) = nan.
Proof. apply Prim2SF_inj. rewrite mul_spec. reflexivity. Qed.

Lemma nan_div_l y : (nan / y) = nan.
Proof. apply Prim2SF_inj. rewrite div_spec. reflexivity. Qed.



(** ** Rounding does not lose a number above the smallest subnormal

    A positive mantissa [m] with exponent [e] such that [m * 2^e] is at
    least the smallest subnormal number is rounded to a finite number or to
    an infinity: a sum of positive numbers, and eight times a positive
    number, are positive. *)

Section Magnitude.
Variables prec emax : Z.
Hypothesis Hprec : (0 < prec)%Z.

Local Open Scope Z_scope.

Lemma digits2_pos_bounds (p : positive) :
  2 ^ (Zpos (digits2_pos p) - 1) <= Zpos p < 2 ^ Zpos (digits2_pos p).
Proof.
  induction p as [p IH|p IH|]; simpl digits2_pos.
  - rewrite Pos2Z.inj_succ, Z.pow_succ_r by lia.
    replace (Z.succ (Zpos (digits2_pos p)) - 1) with (Z.succ (Zpos (digits2_pos p) - 1)) by lia.
    rewrite Z.pow_succ_r by lia. lia.
  - rewrite Pos2Z.inj_succ, Z.pow_succ_r by lia.
    replace (Z.succ (Zpos (digits2_pos p)) - 1) with (Z.succ (Zpos (digits2_pos p) - 1)) by lia.
    rewrite Z.pow_succ_r by lia. lia.
  - simpl. lia.
Qed.

Lemma shr_1_lower (mrs : shr_record) (k : Z) :
  0 <= k -> 2 ^ (k + 1) <= shr_m mrs -> 2 ^ k <= shr_m (shr_1 mrs).
Proof.
  intros Hk H. rewrite Z.pow_add_r, Z.pow_1_r in H by lia.
  assert (0 < 2 ^ k) by (apply Z.pow_pos_nonneg; lia).
  destruct mrs as [m r s]. simpl in H.
  destruct m as [|[p|p|]|p]; simpl; lia.
Qed.

Lemma iter_shr_1_lower (p : positive) : forall (mrs : shr_record) (k : Z),
  0 <= k -> 2 ^ (Zpos p + k) <= shr_m mrs ->
  2 ^ k <= shr_m (SpecFloat.iter_pos shr_1 p mrs).
Proof.
  induction p as [p IH|p IH|]; intros mrs k Hk H; simpl.
  - apply IH; trivial. apply IH; [lia|]. apply shr_1_lower; [lia|].
    replace (Zpos p + (Zpos p + k) + 1) with (Zpos p~1 + k) by lia. exact H.
  - apply IH; trivial. apply IH; [lia|].
    replace (Zpos p + (Zpos p + k)) with (Zpos p~0 + k) by lia. exact H.
  - apply shr_1_lower; trivial. now rewrite Z.add_comm.
Qed.

Lemma shr_fexp_lower (m : positive) (e : Z) (l : location) :
  SpecFloat.emin prec emax < Zpos (digits2_pos m) + e ->
  0 < shr_m (fst (shr_fexp prec emax (Zpos m) e l))
  /\ SpecFloat.emin prec emax <= snd (shr_fexp prec emax (Zpos m) e l).
Proof.
  intros Hmag. unfold shr_fexp, shr, Zdigits2.
  set (d := Zpos (digits2_pos m)) in *.
  pose proof (digits2_pos_bounds m) as [Hlo _]. fold d in Hlo.
  assert (Hrec : shr_m (shr_record_of_loc (Zpos m) l) = Zpos m)
    by (destruct l as [|[]]; reflexivity).
  unfold fexp.
  destruct (Z.max (d + e - prec) (SpecFloat.emin prec emax) - e) as [|p|p] eqn:En; simpl.
  - rewrite Hrec. lia.
  - split; [|lia].
    assert (Hp : Zpos p <= d - 1) by lia.
    pose proof (iter_shr_1_lower p (shr_record_of_loc (Zpos m) l) (d - 1 - Zpos p)
                  ltac:(lia)) as Hit.
    rewrite Hrec in Hit.
    replace (Zpos p + (d - 1 - Zpos p)) with (d - 1) in Hit by lia.
    specialize (Hit Hlo).
    assert (0 < 2 ^ (d - 1 - Zpos p)) by (apply Z.pow_pos_nonneg; lia).
    lia.
  - rewrite Hrec. lia.
Qed.

Lemma round_nearest_even_lower (m : Z) (l : location) :
  0 < m -> 0 < round_nearest_even m l.
Proof.
  intros H. unfold round_nearest_even.
  destruct l as [|[]]; try destruct (Z.even m); lia.
Qed.

(** A mantissa that is not below the smallest subnormal number is rounded
    to a finite number or to an infinity, never to zero. *)
Lemma binary_round_aux_pos (s : bool) (m : positive) (e : Z) (l : location) :
  SpecFloat.emin prec emax < Zpos (digits2_pos m) + e ->
  match binary_round_aux prec emax s (Zpos m) e l with
  | S754_finite s' _ _ | S754_infinity s' => s' = s
  | _ => False
  end.
Proof.
  intros Hmag. unfold binary_round_aux.
  pose proof (shr_fexp_lower m e l Hmag) as [H1 He1].
  destruct (shr_fexp prec emax (Zpos m) e l) as [mrs' e']. simpl in H1, He1.
  pose proof (round_nearest_even_lower _ (loc_of_shr_record mrs') H1) as H2.
  destruct (round_nearest_even (shr_m mrs') (loc_of_shr_record mrs')) as [|m2|m2];
    try lia.
  pose proof (shr_fexp_lower m2 e' loc_Exact ltac:(lia)) as [H3 _].
  destruct (shr_fexp prec emax (Zpos m2) e' loc_Exact) as [mrs'' e'']. simpl in H3.
  destruct (shr_m mrs'') as [|m3|m3]; try lia.
  now destruct (e'' <=? emax - prec).
Qed.

Lemma valid_exponent (m : positive) (e : Z) :
  bounded prec emax m e = true -> SpecFloat.emin prec emax <= e.
Proof.
  unfold bounded, canonical_mantissa, fexp. intros H.
  apply andb_true_iff in H as [H _]. apply Z.eqb_eq in H. lia.
Qed.

Lemma SFadd_pos (x y : spec_float) :
  SpecFloat.valid_binary prec emax x = true -> SpecFloat.valid_binary prec emax y = true ->
  SFnonneg x = true -> SFpos y = true -> SFpos (SFadd prec emax x y) = true.
Proof.
  destruct x as [sx|sx| |sx mx ex], y as [sy|sy| |sy my ey]; simpl;
    try discriminate; trivial; intros Vx Vy Hx Hy;
    try (apply negb_true_iff in Hx; subst sx);
    try (apply negb_true_iff in Hy; subst sy); trivial.
  apply valid_exponent in Vx, Vy.
  cbn [cond_Zopp Z.add]. unfold binary_normalize, binary_round.
  set (mz := (fst (shl_align mx ex (Z.min ex ey)) + fst (shl_align my ey (Z.min ex ey)))%positive).
  set (ez := Z.min ex ey).
  assert (Hez : SpecFloat.emin prec emax <= ez) by (unfold ez; lia).
  assert (Hmag : SpecFloat.emin prec emax
                 < Zpos (digits2_pos (fst (shl_align mz ez (fexp prec emax (Zpos (digits2_pos mz) + ez)))))
                   + snd (shl_align mz ez (fexp prec emax (Zpos (digits2_pos mz) + ez)))).
  { unfold shl_align, fexp.
    destruct (Z.max (Zpos (digits2_pos mz) + ez - prec) (SpecFloat.emin prec emax) - ez)
      eqn:E; cbn [fst snd]; lia. }
  destruct (shl_align mz ez _) as [m' e']. cbn [fst snd] in Hmag.
  pose proof (binary_round_aux_pos false m' e' loc_Exact Hmag) as H.
  destruct (binary_round_aux prec emax false (Zpos m') e' loc_Exact);
    try contradiction; now subst.
Qed.

Lemma SFmul_pow2_pos (x : spec_float) (k : positive) (e8 : Z) :
  SpecFloat.valid_binary prec emax x = true -> 0 <= Zpos k + e8 ->
  SFpos x = true ->
  SFpos (SFmul prec emax x (S754_finite false (Pos.pow 2 k) e8)) = true.
Proof.
  intros Vx Hk Hx.
  destruct x as [s|s| |s m e]; simpl in Vx, Hx |- *; try discriminate;
    apply negb_true_iff in Hx; subst s; trivial.
  apply valid_exponent in Vx.
  assert (Hmag : SpecFloat.emin prec emax < Zpos (digits2_pos (m * 2 ^ k)) + (e + e8)).
  { pose proof (digits2_pos_bounds (m * 2 ^ k)) as [_ Hup].
    assert (Hlow : 2 ^ Zpos k <= Zpos (m * 2 ^ k)).
    { rewrite Pos2Z.inj_mul, Pos2Z.inj_pow.
      assert (0 < 2 ^ Zpos k) by (apply Z.pow_pos_nonneg; lia). nia. }
    assert (Zpos k < Zpos (digits2_pos (m * 2 ^ k))).
    { apply (Z.pow_lt_mono_r_iff 2); lia. }
    lia. }
  pose proof (binary_round_aux_pos false (m * 2 ^ k) (e + e8) loc_Exact Hmag) as H.
  change (xorb false false) with false.
  destruct (binary_round_aux prec emax false (Zpos (m * 2 ^ k)) (e + e8) loc_Exact);
    try contradiction; now subst.
Qed.

End Magnitude.

Lemma pos_SF (x : float) : (0 <? x) = SFpos (Prim2SF x).
Proof.
  rewrite ltb_spec. change (Prim2SF 0) with (S754_zero false).
  classify x; reflexivity.
Qed.

Lemma pos_nonneg (x : float) : (0 <? x) = true -> (0 <=? x) = true.
Proof.
  rewrite pos_SF, leb_spec. change (Prim2SF 0) with (S754_zero false).
  classify x; reflexivity.
Qed.

Lemma guard_pos (x : float) : is_nan x || (x <=? 0) = false -> (0 <? x) = true.
Proof.
  intros H. apply orb_false_iff in H as [Hn Hle].
  unfold is_nan in Hn. rewrite FloatAxioms.eqb_spec in Hn.
  rewrite leb_spec in Hle. change (Prim2SF 0) with (S754_zero false) in Hle.
  rewrite pos_SF.
  classify x; trivial.
Qed.

Lemma pos_times8 (x : float) : (0 <? x) = true -> (0 <? x * 8) = true.
Proof.
  rewrite !pos_SF, mul_spec. intros H.
  change (Prim2SF 8) with (S754_finite false (2 ^ 52) (-49)).
  apply SFmul_pow2_pos; trivial; try reflexivity. apply Prim2SF_valid. discriminate.
Qed.

Lemma pos_add (x y : float) :
  (0 <=? x) = true -> (0 <? y) = true -> (0 <? x + y) = true.
Proof.
  rewrite !pos_SF, add_spec, leb_spec. change (Prim2SF 0) with (S754_zero false).
  intros Hx Hy. apply SFadd_pos; trivial; try apply Prim2SF_valid; try reflexivity.
  classify x; reflexivity.
Qed.

(** The reference [hypot] propagates a NaN against a finite argument. *)
Lemma hypot_ref_nan (x y : float) :
  is_nan x = true -> is_infinity y = false -> is_nan (hypot_ref x y) = true.
Proof.
  intros Hx Hy. apply is_nan_eq in Hx. subst x. unfold hypot_ref.
  change (is_infinity nan) with false. rewrite Hy. reflexivity.
Qed.

(* ================================================================== *)
(** * Part VII: the estimator and the ratio as numbers                *)
(* ================================================================== *)

Lemma fold_left_invariant {A B} (P : B -> Prop) (f : B -> A -> B) (l : list A) (b : B) :
  P b -> (forall acc x, P acc -> P (f acc x)) -> P (fold_left f l b).
Proof.
  intros Hb Hf. revert b Hb; induction l as [|x l IH]; intros b Hb; simpl; auto.
Qed.

Section EstimatorSign.

Variable hypot : float -> float -> float.
Variable cell_size : float.
Hypothesis Hcell : np.isnan cell_size = false.

Lemma guard_area_nonneg (area : float) :
  nonneg (guard_area cell_size area) = true.
Proof.
  unfold guard_area, np.isnan, np.square.
  destruct (is_nan area || (area <=? 0)) eqn:E.
  - apply nonneg_half, nonneg_square, Hcell.
  - now apply guard_nonneg.
Qed.

Lemma loop_body_nonneg (values : list float) (center : float) (W : nat)
      (total : float) (i j : nat) :
  nonneg total = true ->
  nonneg (loop_body hypot values cell_size center W total i j) = true.
Proof.
  intros H. unfold loop_body.
  apply nonneg_add; trivial. apply nonneg_times8, guard_area_nonneg.
Qed.

(** The total is a number and is not negative, whatever the samples. *)
Lemma estimator_nonneg (values : list float) :
  nonneg (compute_triangle_areas hypot values cell_size) = true.
Proof.
  unfold compute_triangle_areas.
  apply fold_left_invariant; [reflexivity|]. intros total i Htotal.
  apply fold_left_invariant; trivial. intros total' j Htotal'.
  now apply loop_body_nonneg.
Qed.

(** With a fallback above zero, every triangle adds a positive area. *)
Hypothesis Hfallback : (0 <? np.square cell_size / 2) = true.

Lemma guard_area_pos (area : float) :
  (0 <? guard_area cell_size area) = true.
Proof.
  unfold guard_area, np.isnan.
  destruct (is_nan area || (area <=? 0)) eqn:E; [exact Hfallback|].
  now apply guard_pos.
Qed.

Lemma loop_body_pos (values : list float) (center : float) (W : nat)
      (total : float) (i j : nat) :
  nonneg total = true ->
  (0 <? loop_body hypot values cell_size center W total i j) = true.
Proof.
  intros H. unfold loop_body.
  apply pos_add; trivial. apply pos_times8, guard_area_pos.
Qed.

Lemma fold_left_pos {A} (f : float -> A -> float) (l : list A) (b : float) :
  l <> [] -> nonneg b = true ->
  (forall acc x, nonneg acc = true -> (0 <? f acc x) = true) ->
  (0 <? fold_left f l b) = true.
Proof.
  intros Hl Hb Hf. destruct l as [|x l]; [congruence|]. simpl.
  apply (fold_left_invariant (fun t => (0 <? t) = true)); [now apply Hf|].
  intros acc y Hacc. apply Hf. now apply pos_nonneg.
Qed.

(** The total of a window of side 2 or more is above zero. *)
Lemma estimator_pos (values : list float) :
  (4 <= length values)%nat ->
  (0 <? compute_triangle_areas hypot values cell_size) = true.
Proof.
  intros Hlen. unfold compute_triangle_areas, np.int_sqrt.
  assert (HW : (2 <= Nat.sqrt (length values))%nat)
    by (apply Nat.sqrt_le_square; simpl; lia).
  assert (Hsweep : seq 0 (Nat.sqrt (length values) - 1) <> []).
  { destruct (Nat.sqrt (length values) - 1)%nat eqn:E; [lia|discriminate]. }
  apply fold_left_pos; trivial. intros total i Htotal.
  apply fold_left_pos; trivial. intros total' j Htotal'.
  now apply loop_body_pos.
Qed.

End EstimatorSign.

(** C3, amended: for every window and every cell size that is a number,
    a triangle whose Heron area is NaN or [<= 0] contributes the fallback
    [cell_size ** 2 / 2], a triangle with any other area (an infinite one
    included) contributes that area, and the total returned is never NaN
    and never negative; it is above zero when the fallback is above zero
    (the square of the cell size does not underflow) and the window has
    side 2 or more. *)
Theorem fallback_keeps_total_nonnegative
        (hypot : float -> float -> float) (values : list float) (cell_size : float) :
  np.isnan cell_size = false ->
  (forall center W total i j,
      let area := heron_area hypot center (np.getitem values (i * W + j))
                             (np.getitem values (i * W + j + 1)) cell_size in
      (np.isnan area = true \/ (area <=? 0) = true ->
       loop_body hypot values cell_size center W total i j
       = total + np.square cell_size / 2 * 8)
      /\ (np.isnan area = false -> (area <=? 0) = false ->
          loop_body hypot values cell_size center W total i j = total + area * 8))
  /\ np.isnan (compute_triangle_areas hypot values cell_size) = false
  /\ (0 <=? compute_triangle_areas hypot values cell_size) = true
  /\ ((0 <? np.square cell_size / 2) = true -> (4 <= length values)%nat ->
      (0 <? compute_triangle_areas hypot values cell_size) = true).
Proof.
  intros Hcell. split; [|split; [|split]].
  - intros center W total i j area. unfold loop_body. fold area. split.
    + intros [H|H]; unfold guard_area; rewrite H; trivial.
      now rewrite orb_true_r.
    + intros H1 H2. unfold guard_area. now rewrite H1, H2.
  - apply nonneg_not_nan, estimator_nonneg, Hcell.
  - apply (estimator_nonneg hypot cell_size Hcell).
  - intros Hfallback Hlen. now apply estimator_pos.
Qed.

Lemma fallback_keeps_total_nonnegative_witness :
  let values := [0; 0x1p+600; 0; 0; 0; 0; 0; 0; 0] in
  (forall center W total i j,
      let area := heron_area hypot_ref center (np.getitem values (i * W + j))
                             (np.getitem values (i * W + j + 1)) 1 in
      (np.isnan area = true \/ (area <=? 0) = true ->
       loop_body hypot_ref values 1 center W total i j = total + np.square 1 / 2 * 8)
      /\ (np.isnan area = false -> (area <=? 0) = false ->
          loop_body hypot_ref values 1 center W total i j = total + area * 8))
  /\ np.isnan (compute_triangle_areas hypot_ref values 1) = false
  /\ (0 <=? compute_triangle_areas hypot_ref values 1) = true
  /\ ((0 <? np.square 1 / 2) = true -> (4 <= length values)%nat ->
      (0 <? compute_triangle_areas hypot_ref values 1) = true).
Proof.
  apply (fallback_keeps_total_nonnegative hypot_ref). reflexivity.
Defined.

(** C3, as stated, fails: with [cell_size = 1] and one sample [2^600] next
    to zeros, the Heron product overflows; the area [+inf] is neither NaN
    nor [<= 0], the fallback is not taken and the total is [+inf]. *)
Lemma estimator_overflows :
  let values := [0; 0x1p+600; 0; 0; 0; 0; 0; 0; 0] in
  (0 <? 1) = true
  /\ heron_area hypot_ref 0 0 0x1p+600 1 = infinity
  /\ guard_area 1 infinity = infinity
  /\ compute_triangle_areas hypot_ref values 1 = infinity
  /\ is_finite (compute_triangle_areas hypot_ref values 1) = false.
Proof. vm_compute. repeat split; reflexivity. Qed.

(** C10, amended: for every window and every finite cell size, a triangle
    whose centre, swept sample or right neighbour is NaN has a NaN Heron
    area and contributes the fallback, eight times [cell_size ** 2 / 2];
    the total returned is never NaN and never negative, and it is above
    zero when the fallback is and the window has side 2 or more.  ([hypot]
    propagates a NaN against a finite argument, as C's does.) *)
Theorem nan_samples_take_fallback
        (hypot : float -> float -> float) (values : list float) (cell_size : float) :
  (forall x y, is_nan x = true -> is_infinity y = false -> is_nan (hypot x y) = true) ->
  is_finite cell_size = true ->
  (forall center W total i j,
      np.isnan center = true
      \/ np.isnan (np.getitem values (i * W + j)) = true
      \/ np.isnan (np.getitem values (i * W + j + 1)) = true ->
      np.isnan (heron_area hypot center (np.getitem values (i * W + j))
                           (np.getitem values (i * W + j + 1)) cell_size) = true
      /\ loop_body hypot values cell_size center W total i j
         = total + np.square cell_size / 2 * 8)
  /\ np.isnan (compute_triangle_areas hypot values cell_size) = false
  /\ (0 <=? compute_triangle_areas hypot values cell_size) = true
  /\ ((0 <? np.square cell_size / 2) = true -> (4 <= length values)%nat ->
      (0 <? compute_triangle_areas hypot values cell_size) = true).
Proof.
  intros Hhypot Hfin.
  unfold is_finite in Hfin. apply negb_true_iff, orb_false_iff in Hfin as [Hnan Hinf].
  split; [|split; [|split]].
  - intros center W total i j Hsample.
    set (vi := np.getitem values (i * W + j)).
    set (vi1 := np.getitem values (i * W + j + 1)).
    assert (Harea : heron_area hypot center vi vi1 cell_size = nan).
    { unfold heron_area, np.sqrt, np.abs.
      assert (Hs : forall o d a, o = nan \/ a = nan -> (o + d + a) / 2 = nan).
      { intros o d a [-> | ->].
        - now rewrite !nan_add_l, nan_div_l.
        - now rewrite nan_add_r, nan_div_l. }
      rewrite Hs; [now rewrite !nan_mul_l|].
      destruct Hsample as [Hc|[Hv|Hv1]]; unfold np.isnan in *.
      - left. apply is_nan_eq in Hc. subst center. rewrite nan_sub_l.
        rewrite (is_nan_eq _ (Hhypot nan cell_size eq_refl Hinf)). apply nan_div_l.
      - left. fold vi in Hv. apply is_nan_eq in Hv. rewrite Hv, nan_sub_r.
        rewrite (is_nan_eq _ (Hhypot nan cell_size eq_refl Hinf)). apply nan_div_l.
      - right. fold vi1 in Hv1. apply is_nan_eq in Hv1. rewrite Hv1, nan_sub_r.
        rewrite (is_nan_eq _ (Hhypot nan cell_size eq_refl Hinf)). apply nan_div_l. }
    split.
    + now rewrite Harea.
    + unfold loop_body. fold vi vi1. rewrite Harea. reflexivity.
  - apply nonneg_not_nan, estimator_nonneg, Hnan.
  - apply (estimator_nonneg hypot cell_size Hnan).
  - intros Hfallback Hlen. now apply estimator_pos.
Qed.

Lemma nan_samples_take_fallback_witness :
  let values := [nan; 0; 0; 0; 0; 0; 0; 0; 0] in
  (forall center W total i j,
      np.isnan center = true
      \/ np.isnan (np.getitem values (i * W + j)) = true
      \/ np.isnan (np.getitem values (i * W + j + 1)) = true ->
      np.isnan (heron_area hypot_ref center (np.getitem values (i * W + j))
                           (np.getitem values (i * W + j + 1)) 1) = true
      /\ loop_body hypot_ref values 1 center W total i j
         = total + np.square 1 / 2 * 8)
  /\ np.isnan (compute_triangle_areas hypot_ref values 1) = false
  /\ (0 <=? compute_triangle_areas hypot_ref values 1) = true
  /\ ((0 <? np.square 1 / 2) = true -> (4 <= length values)%nat ->
      (0 <? compute_triangle_areas hypot_ref values 1) = true).
Proof.
  apply (nan_samples_take_fallback hypot_ref [nan; 0; 0; 0; 0; 0; 0; 0; 0] 1).
  - exact hypot_ref_nan.
  - reflexivity.
Defined.

(** C10, as stated, fails: a window with a NaN sample and, elsewhere, a
    sample [2^600] has an infinite total with [cell_size = 1]; and a window
    of NaN samples with [cell_size = 2^-600], whose square underflows, has
    the total zero. *)
Lemma nan_window_total_not_finite_positive :
  (0 <? 1) = true
  /\ compute_triangle_areas hypot_ref [nan; 0; 0x1p+600; 0; 0; 0; 0; 0; 0] 1 = infinity
  /\ (0 <? 0x1p-600) = true
  /\ compute_triangle_areas hypot_ref (repeat nan 9) 0x1p-600 = 0.
Proof. vm_compute. repeat split; reflexivity. Qed.

(** ** The ratio *)

(** A planar area that is positive and finite is one Python computes and
    divides by. *)
Lemma planar_defined_pos_finite (W : Z) (cell_size : float) :
  (0 <? planar_area W cell_size) = true ->
  (planar_area W cell_size <? infinity) = true ->
  planar_defined W cell_size = true.
Proof.
  intros Hpos Hfin. unfold planar_defined.
  rewrite ltb_spec in Hpos, Hfin.
  change (Prim2SF infinity) with (S754_infinity false) in Hfin.
  change (Prim2SF 0) with (S754_zero false) in Hpos.
  assert (Hinf : is_infinity (planar_area W cell_size) = false).
  { unfold is_infinity. rewrite FloatAxioms.eqb_spec, abs_spec.
    change (Prim2SF infinity) with (S754_infinity false).
    destruct (Prim2SF (planar_area W cell_size)) as [s|s| |s m e];
      try destruct s; try discriminate; reflexivity. }
  assert (Hzero : is_zero (planar_area W cell_size) = false).
  { unfold is_zero. rewrite FloatAxioms.eqb_spec.
    change (Prim2SF 0) with (S754_zero false).
    destruct (Prim2SF (planar_area W cell_size)) as [s|s| |s m e];
      try destruct s; try discriminate; reflexivity. }
  now rewrite Hinf, Hzero, andb_false_r.
Qed.

Lemma ratio_nonneg
      (hypot : float -> float -> float) (W : Z) (cell_size : float) (values : list float) :
  np.isnan cell_size = false ->
  (0 <? planar_area W cell_size) = true ->
  (planar_area W cell_size <? infinity) = true ->
  nonneg (ratio hypot W cell_size values) = true.
Proof.
  intros Hcell Hpos Hfin. unfold ratio.
  apply nonneg_div; trivial. now apply estimator_nonneg.
Qed.

(** When the planar area is defined, the run returns, and a non-fringe
    cell of the final grid holds the ratio for the window read by the
    processor. *)
Lemma analyze_cells
      (hypot : float -> float -> float) (self : RugosityIndex) (elev : grid)
      (cell_size : float) (R C : nat) (pbar : nat) :
  valid_window (window_size self) -> rect R C elev ->
  (chunk_processing self = true ->
   (Z.to_nat (window_size self / 2) <= R)%nat /\ (Z.to_nat (window_size self / 2) <= C)%nat
   /\ valid_tile (chunksize self)) ->
  planar_defined (window_size self) cell_size = true ->
  exists out,
    returned (analyze hypot self elev cell_size pbar) = Some out
    /\ forall i j, (i < R)%nat -> (j < C)%nat ->
         in_fringe R C (Z.to_nat (window_size self / 2 + 1)) i j = false ->
         exists values,
           get out i j = ratio hypot (window_size self) cell_size values
           /\ ((chunk_processing self = false
                /\ values = window_nearest elev (2 * Z.to_nat (window_size self / 2) + 1) i j)
               \/ (chunk_processing self = true
                   /\ values = window_reflect elev (Z.to_nat (window_size self / 2)) i j)).
Proof.
  intros HW Hx Hchunk Hplanar. unfold analyze.
  destruct (chunk_processing self) eqn:Hmode.
  - destruct (Hchunk eq_refl) as (HdR & HdC & Hch & Hcw).
    rewrite (calculate_rugosity_chunked hypot self elev cell_size HW R C) by trivial.
    eexists. split; [reflexivity|].
    intros i j Hi Hj Hfr. rewrite get_invalidate_fringe.
    rewrite (rect_nrows R C), (rect_ncols R C);
      [| apply rect_tabulate | lia | apply rect_tabulate].
    rewrite Hfr, get_tabulate by assumption. eauto.
  - rewrite (calculate_rugosity_sequential hypot self elev cell_size HW) by trivial.
    eexists. split; [reflexivity|].
    intros i j Hi Hj Hfr. rewrite get_invalidate_fringe.
    rewrite (rect_nrows R C), (rect_ncols R C);
      [| now apply rect_tabulate_shape | lia | now apply rect_tabulate_shape].
    rewrite Hfr.
    rewrite (rect_nrows _ _ _ Hx), (rect_ncols _ _ _ Hx) by lia.
    rewrite get_tabulate by assumption. eauto.
Qed.

(** A run that returns a grid on an array that is not empty was, in the
    chunked processor, given an array that holds the window's half-width
    and chunks of positive size. *)
Lemma returned_chunk_conditions
      (hypot : float -> float -> float) (self : RugosityIndex) (elev : grid)
      (cell_size : float) (R C : nat) (pbar : nat) (out : grid) :
  rect R C elev -> (0 < R)%nat ->
  returned (analyze hypot self elev cell_size pbar) = Some out ->
  chunk_processing self = true ->
  (Z.to_nat (window_size self / 2) <= R)%nat /\ (Z.to_nat (window_size self / 2) <= C)%nat
  /\ valid_tile (chunksize self).
Proof.
  intros Hx HR Hout Hmode. unfold returned, analyze, calculate_rugosity in Hout.
  destruct ((window_size self mod 2 =? 0)%Z || (window_size self <? 3)%Z);
    [discriminate Hout|].
  rewrite Hmode in Hout. unfold valid_tile.
  destruct (chunksize self) as [ch cw]. cbn [fst snd] in *.
  destruct (map_overlap _ _ (ch, cw) elev) as [result|e] eqn:E; [|discriminate Hout].
  apply map_overlap_returns in E.
  rewrite (rect_nrows _ _ _ Hx), (rect_ncols _ _ _ Hx) in E by assumption.
  tauto.
Qed.

(** C4, amended: for every elevation field, every cell size that is a
    number and every valid window size for which the planar area
    [((W - 1) * cell_size) ** 2] is positive and finite, each ratio at a
    non-fringe cell of a grid that the analysis returns is a number and is
    not negative; it may be infinite and it may be below 1.0.  The
    sequential processor returns a grid on every such input, the chunked
    processor when the grid holds the window's half-width in both
    dimensions and the chunk sizes are positive. *)
Theorem ratio_is_nonnegative
        (hypot : float -> float -> float) (self : RugosityIndex) (elev : grid)
        (cell_size : float) (R C : nat) (pbar : nat) :
  valid_window (window_size self) -> rect R C elev ->
  np.isnan cell_size = false ->
  (0 <? planar_area (window_size self) cell_size) = true ->
  (planar_area (window_size self) cell_size <? infinity) = true ->
  (forall out,
      returned (analyze hypot self elev cell_size pbar) = Some out ->
      forall i j, (i < R)%nat -> (j < C)%nat ->
        in_fringe R C (Z.to_nat (window_size self / 2 + 1)) i j = false ->
        np.isnan (get out i j) = false /\ (0 <=? get out i j) = true)
  /\ ((chunk_processing self = true ->
       (Z.to_nat (window_size self / 2) <= R)%nat
       /\ (Z.to_nat (window_size self / 2) <= C)%nat
       /\ valid_tile (chunksize self)) ->
      exists out, returned (analyze hypot self elev cell_size pbar) = Some out).
Proof.
  intros HW Hx Hcell Hpos Hfin.
  pose proof (planar_defined_pos_finite _ _ Hpos Hfin) as Hplanar.
  split.
  - intros out Hout i j Hi Hj Hfr.
    assert (Hchunk : chunk_processing self = true ->
                     (Z.to_nat (window_size self / 2) <= R)%nat
                     /\ (Z.to_nat (window_size self / 2) <= C)%nat
                     /\ valid_tile (chunksize self))
      by (apply (returned_chunk_conditions hypot self elev cell_size R C pbar out);
          trivial; lia).
    destruct (analyze_cells hypot self elev cell_size R C pbar HW Hx Hchunk Hplanar)
      as [out' [Hout' Hcells]].
    assert (out' = out) by congruence. subst out'.
    destruct (Hcells i j Hi Hj Hfr) as [values [-> _]].
    pose proof (ratio_nonneg hypot (window_size self) cell_size values
                  Hcell Hpos Hfin) as Hnn.
    split; [now apply nonneg_not_nan | exact Hnn].
  - intros Hchunk.
    destruct (analyze_cells hypot self elev cell_size R C pbar HW Hx Hchunk Hplanar)
      as [out [Hout _]].
    now exists out.
Qed.

Lemma ratio_is_nonnegative_witness :
  let elev := [[0; 0; 0; 0; 0]; [0; 0; 0; 77; 0]; [0; 0; 0; 0; 0];
               [0; 0; 0; 0; 0]; [0; 0; 0; 0; 0]] in
  (forall out,
      returned (analyze hypot_ref (chunked 3 (2, 2)%nat) elev 36 0) = Some out ->
      forall i j, (i < 5)%nat -> (j < 5)%nat ->
        in_fringe 5 5 (Z.to_nat (3 / 2 + 1)) i j = false ->
        np.isnan (get out i j) = false /\ (0 <=? get out i j) = true)
  /\ ((chunk_processing (chunked 3 (2, 2)%nat) = true ->
       (Z.to_nat (3 / 2) <= 5)%nat /\ (Z.to_nat (3 / 2) <= 5)%nat
       /\ valid_tile (2, 2)%nat) ->
      exists out, returned (analyze hypot_ref (chunked 3 (2, 2)%nat) elev 36 0) = Some out).
Proof.
  apply (ratio_is_nonnegative hypot_ref (chunked 3 (2, 2)%nat) _ 36 5 5 0).
  - split; [reflexivity | cbn; lia].
  - split; [reflexivity | repeat constructor].
  - reflexivity.
  - vm_compute. reflexivity.
  - vm_compute. reflexivity.
Defined.

(** C4, as stated, fails: with [window_size = 3] and [cell_size = 36], a
    single sample 77 above its neighbours gives a ratio below 0.90625 at the
    only non-fringe cell of a 5 x 5 grid; a sample [2^600] with
    [cell_size = 1] gives an infinite ratio. *)
Lemma ratio_below_one :
  let spike h := [[0; 0; 0; 0; 0]; [0; 0; 0; h; 0]; [0; 0; 0; 0; 0];
                  [0; 0; 0; 0; 0]; [0; 0; 0; 0; 0]] in
  in_fringe 5 5 (Z.to_nat (3 / 2 + 1)) 2 2 = false
  /\ (exists out,
        returned (analyze hypot_ref (sequential 3) (spike 77) 36 0) = Some out
        /\ (1 <=? get out 2 2) = false /\ (get out 2 2 <? 0.90625) = true)
  /\ (exists out,
        returned (analyze hypot_ref (sequential 3) (spike 0x1p+600) 1 0) = Some out
        /\ is_finite (get out 2 2) = false).
Proof.
  intros spike. split; [reflexivity|]. split.
  - eexists. split; [vm_compute; reflexivity|]. vm_compute. split; reflexivity.
  - eexists. split; [vm_compute; reflexivity|]. vm_compute. reflexivity.
Qed.

(** ** Flat grids *)

Lemma rect_flat_grid (R C : nat) (c : float) : rect R C (flat_grid R C c).
Proof.
  split.
  - apply repeat_length.
  - apply Forall_forall. intros row Hin. apply repeat_spec in Hin. subst row.
    apply repeat_length.
Qed.











(* ================================================================== *)
(** * Part VIII: further properties of the estimator and the traversals *)
(* ================================================================== *)

Close Scope float_scope.

(** ** Reads of the estimator *)

Lemma getitem_checked_inside (values : list float) (k : nat) :
  k < length values -> getitem_checked values k = Some (np.getitem values k).
Proof.
  intros Hk. unfold getitem_checked, np.getitem. now apply nth_error_nth'.
Qed.

Lemma fold_left_checked {A} (f : float -> A -> float) (g : float -> A -> option float)
      (l : list A) (t : float) :
  (forall t a, In a l -> g t a = Some (f t a)) ->
  fold_left (fun acc a => match acc with Some t => g t a | None => None end) l (Some t)
  = Some (fold_left f l t).
Proof.
  revert t. induction l as [|a l IH]; intros t H; simpl; trivial.
  rewrite H by now left. apply IH. intros t' a' Ha'. apply H. now right.
Qed.

Lemma fold_left_checked_rows {A} (f : float -> A -> float)
      (g : option float -> A -> option float) (l : list A) (t : float) :
  (forall t a, In a l -> g (Some t) a = Some (f t a)) ->
  fold_left g l (Some t) = Some (fold_left f l t).
Proof.
  revert t. induction l as [|a l IH]; intros t H; simpl; trivial.
  rewrite H by now left. apply IH. intros t' a' Ha'. apply H. now right.
Qed.

(** X1: the estimator never reads outside its window.  With every read
    bounds-checked, the estimator returns, on every non-empty array
    (whatever its length, a perfect square or not), the value of the
    compiled estimator: no check fails.  On the empty array the first read,
    of the centre, is already outside. *)
Theorem estimator_reads_inside_window
        (hypot : float -> float -> float) (values : list float) (cell_size : float) :
  compute_triangle_areas_checked hypot values cell_size
  = match values with
    | [] => None
    | _ :: _ => Some (compute_triangle_areas hypot values cell_size)
    end.
Proof.
  destruct values as [|v values]; [reflexivity|].
  set (vs := v :: values).
  assert (Hne : vs <> []) by discriminate.
  destruct (estimator_reads_in_range vs Hne) as [Hcenter Hidx].
  unfold compute_triangle_areas_checked, compute_triangle_areas.
  rewrite (getitem_checked_inside vs _ Hcenter).
  apply fold_left_checked_rows. intros t i Hi.
  apply fold_left_checked. intros t' j Hj.
  apply in_seq in Hi, Hj. specialize (Hidx i j ltac:(lia) ltac:(lia)).
  unfold loop_body_checked, loop_body.
  rewrite !getitem_checked_inside by lia. reflexivity.
Qed.

(** X2: a window of fewer than four samples has no cell to sweep: the
    estimator returns [0.0], whatever the samples (NaN included) and the
    cell size. *)
Theorem estimator_of_short_window
        (hypot : float -> float -> float) (values : list float) (cell_size : float) :
  values <> [] -> length values < 4 ->
  compute_triangle_areas hypot values cell_size = 0%float.
Proof.
  intros _ Hlen. unfold compute_triangle_areas, np.int_sqrt.
  assert (Hs : Nat.sqrt (length values) < 2)
    by (apply Nat.sqrt_lt_square; simpl; lia).
  destruct (Nat.sqrt (length values)) as [|[|s]]; [reflexivity | reflexivity | lia].
Qed.

Lemma estimator_of_short_window_witness :
  compute_triangle_areas hypot_ref [5; nan; 7]%float 2%float = 0%float.
Proof.
  apply (estimator_of_short_window hypot_ref [5; nan; 7]%float 2%float).
  - discriminate.
  - simpl. lia.
Defined.

(** ** Terrain turned upside down *)

Lemma binary_round_opp (s : bool) (m : positive) (e : Z) :
  binary_round prec emax (negb s) m e = SFopp (binary_round prec emax s m e).
Proof.
  unfold binary_round. destruct (shl_align _ _ _) as [mz ez].
  unfold binary_round_aux.
  destruct (shr_fexp prec emax (Z.pos mz) ez loc_Exact) as [mrs' e'].
  destruct (shr_fexp prec emax _ e' loc_Exact) as [mrs'' e''].
  destruct (shr_m mrs'') as [|p|p]; trivial.
  now destruct (e'' <=? emax - prec)%Z.
Qed.

Lemma cond_Zopp_negb (s : bool) (m : Z) : cond_Zopp (negb s) m = (- cond_Zopp s m)%Z.
Proof. destruct s; simpl; lia. Qed.

(** Negating both operands of a subtraction negates the difference, or
    leaves it alone when it is a zero. *)
Lemma SFsub_opp (x y : spec_float) :
  SFsub prec emax (SFopp x) (SFopp y) = SFopp (SFsub prec emax x y)
  \/ SFsub prec emax (SFopp x) (SFopp y) = SFsub prec emax x y.
Proof.
  destruct x as [sx|sx| |sx mx ex], y as [sy|sy| |sy my ey];
    try (left; reflexivity);
    try (destruct sx, sy; simpl; auto; fail).
  simpl.
  rewrite !cond_Zopp_negb.
  set (a := cond_Zopp sx _). set (b := cond_Zopp sy _).
  replace (- a - - b)%Z with (- (a - b))%Z by lia.
  destruct (a - b)%Z as [|p|p]; simpl.
  - now right.
  - left. apply (binary_round_opp false).
  - left. change false with (negb true) at 1. 
    rewrite (binary_round_opp true). now destruct (binary_round prec emax true p _).
Qed.

Lemma sub_opp (x y : float) :
  (- x - - y = - (x - y) \/ - x - - y = x - y)%float.
Proof.
  destruct (SFsub_opp (Prim2SF x) (Prim2SF y)) as [H|H]; [left|right];
    apply Prim2SF_inj; rewrite ?opp_spec, !sub_spec, ?opp_spec; exact H.
Qed.

Section Mirror.

Variable hypot : float -> float -> float.

(** [hypot] does not look at the sign of its first argument. *)
Hypothesis hypot_even : forall d c, hypot (- d)%float c = hypot d c.

Lemma hypot_sub_opp (x y c : float) : hypot (- x - - y)%float c = hypot (x - y)%float c.
Proof.
  destruct (sub_opp x y) as [-> | ->]; [apply hypot_even | reflexivity].
Qed.

Lemma heron_area_opp (center vi vi1 cell_size : float) :
  heron_area hypot (- center)%float (- vi)%float (- vi1)%float cell_size
  = heron_area hypot center vi vi1 cell_size.
Proof. unfold heron_area. now rewrite !hypot_sub_opp. Qed.

Lemma getitem_opp (values : list float) (k : nat) :
  np.getitem (map PrimFloat.opp values) k = (- np.getitem values k)%float.
Proof.
  unfold np.getitem. exact (map_nth PrimFloat.opp values np.nan k).
Qed.

Lemma estimator_opp (values : list float) (cell_size : float) :
  compute_triangle_areas hypot (map PrimFloat.opp values) cell_size
  = compute_triangle_areas hypot values cell_size.
Proof.
  unfold compute_triangle_areas. rewrite length_map, getitem_opp.
  apply fold_left_ext_in. intros t i _. apply fold_left_ext_in. intros t' j _.
  unfold loop_body. now rewrite !getitem_opp, heron_area_opp.
Qed.

Lemma rugosity_filter_opp (W : Z) (cell_size : float) (values : list float) :
  rugosity_filter hypot W cell_size (map PrimFloat.opp values)
  = rugosity_filter hypot W cell_size values.
Proof. unfold rugosity_filter. now rewrite estimator_opp. Qed.

End Mirror.

(** X3: the estimate of a window does not change when every sample is
    negated (the terrain turned upside down), for every [hypot] that does
    not look at the sign of its first argument, as C's does. *)
Theorem estimator_of_negated_window
        (hypot : float -> float -> float) (values : list float) (cell_size : float) :
  (forall d c, hypot (- d)%float c = hypot d c) ->
  compute_triangle_areas hypot (map PrimFloat.opp values) cell_size
  = compute_triangle_areas hypot values cell_size.
Proof. intros Heven. now apply estimator_opp. Qed.

Lemma abs_opp (x : float) : abs (- x)%float = abs x.
Proof.
  apply Prim2SF_inj. rewrite !abs_spec, opp_spec.
  now destruct (Prim2SF x) as [s|s| |s m e].
Qed.

Lemma is_nan_opp (x : float) : is_nan (- x)%float = is_nan x.
Proof.
  destruct (is_nan x) eqn:E.
  - apply is_nan_SF in E. apply is_nan_SF. now rewrite opp_spec, E.
  - apply is_nan_false_SF in E. apply is_nan_false_SF. rewrite opp_spec.
    destruct (Prim2SF x) as [s|s| |s m e]; simpl; congruence.
Qed.

(** The reference [hypot] does not look at the sign of its first
    argument. *)
Lemma hypot_ref_even (d c : float) : hypot_ref (- d)%float c = hypot_ref d c.
Proof.
  unfold hypot_ref, is_infinity. now rewrite abs_opp, is_nan_opp.
Qed.

Lemma estimator_of_negated_window_witness :
  compute_triangle_areas hypot_ref (map PrimFloat.opp [0; 0; 0; 0; 77; 0; 0; 0; 0]%float)
                         36%float
  = compute_triangle_areas hypot_ref [0; 0; 0; 0; 77; 0; 0; 0; 0]%float 36%float.
Proof.
  apply (estimator_of_negated_window hypot_ref _ 36%float). exact hypot_ref_even.
Defined.

Lemma nrows_negate (x : grid) : nrows (negate x) = nrows x.
Proof. apply length_map. Qed.

Lemma ncols_negate (x : grid) : ncols (negate x) = ncols x.
Proof. unfold ncols, negate. destruct x as [|row x]; simpl; trivial. apply length_map. Qed.

Lemma get_negate (x : grid) (i j : nat) : get (negate x) i j = (- get x i j)%float.
Proof.
  unfold get, negate.
  change (@nil float) with (map PrimFloat.opp []) at 1.
  rewrite (map_nth (map PrimFloat.opp) x [] i).
  exact (map_nth PrimFloat.opp (nth i x []) np.nan j).
Qed.

Lemma map_flat_map {A B C} (g : B -> C) (f : A -> list B) (l : list A) :
  map g (flat_map f l) = flat_map (fun a => map g (f a)) l.
Proof.
  induction l as [|a l IH]; simpl; trivial. now rewrite map_app, IH.
Qed.

Lemma window_nearest_negate (x : grid) (size i j : nat) :
  window_nearest (negate x) size i j = map PrimFloat.opp (window_nearest x size i j).
Proof.
  unfold window_nearest. rewrite map_flat_map, nrows_negate, ncols_negate.
  apply flat_map_ext. intros a. rewrite map_map. apply map_ext. intros b.
  apply get_negate.
Qed.

Lemma reflect_map {A B} (f : A -> B) (depth : nat) (x : list A) :
  reflect depth (map f x) = map f (reflect depth x).
Proof.
  unfold reflect. now rewrite !map_app, map_rev, <- !firstn_map, map_rev.
Qed.

Lemma boundaries_negate (depth : nat) (x : grid) :
  boundaries depth (negate x) = negate (boundaries depth x).
Proof.
  unfold boundaries, negate. rewrite reflect_map, !map_map.
  apply map_ext. intros row. apply reflect_map.
Qed.

Section MirrorTraversals.

Variable hypot : float -> float -> float.
Hypothesis hypot_even : forall d c, hypot (- d)%float c = hypot d c.

Lemma generic_filter_negate {S} (function : list float -> S -> result float * S)
      (size : nat) (input : grid) (s : S) :
  (forall values s, function (map PrimFloat.opp values) s = function values s) ->
  generic_filter function size (negate input) s = generic_filter function size input s.
Proof.
  intros H. unfold generic_filter. rewrite nrows_negate, ncols_negate.
  apply traverse_ext. intros i s1. apply traverse_ext. intros j s2.
  now rewrite window_nearest_negate.
Qed.

Lemma map_overlap_negate (func : grid -> result grid) (depth : nat)
      (chunks : nat * nat) (x : grid) :
  (forall block, func (negate block) = func block) ->
  map_overlap func depth chunks (negate x) = map_overlap func depth chunks x.
Proof.
  intros H. unfold map_overlap. destruct chunks as [ch cw].
  rewrite nrows_negate, ncols_negate, boundaries_negate.
  destruct ((ch =? 0) || (cw =? 0)); trivial.
  destruct ((nrows x <? depth) || (ncols x <? depth)); trivial.
  destruct (func [[1%float]]); trivial.
  f_equal. f_equal. apply map_ext. intros [r0 h].
  f_equal. f_equal. apply map_ext. intros [c0 w].
  f_equal. unfold negate at 1. rewrite slice_map, map_map.
  rewrite <- (H (map (slice c0 (w + 2 * depth)) (slice r0 (h + 2 * depth) (boundaries depth x)))).
  f_equal. unfold negate. rewrite map_map. apply map_ext. intros row. apply slice_map.
Qed.

Lemma calculate_rugosity_negate (self : RugosityIndex) (elev : grid) (cell_size : float)
      (pbar : nat) :
  calculate_rugosity hypot self (negate elev) cell_size pbar
  = calculate_rugosity hypot self elev cell_size pbar.
Proof.
  unfold calculate_rugosity.
  destruct ((window_size self mod 2 =? 0)%Z || (window_size self <? 3)%Z); trivial.
  destruct (chunk_processing self).
  - f_equal. apply map_overlap_negate. intros block. f_equal.
    apply generic_filter_negate. intros values u.
    now rewrite (rugosity_filter_opp hypot hypot_even).
  - apply generic_filter_negate. intros values n.
    now rewrite (rugosity_filter_opp hypot hypot_even).
Qed.

End MirrorTraversals.

(** X4: the analysis of a terrain and of the same terrain turned upside
    down ([-Z]) end the same way, with either processor and any chunk
    shape: the same rugosity grid, cell for cell, or the same exception, and
    the same progress count, for every [hypot] that does not look at the
    sign of its first argument. *)
Theorem analysis_of_negated_terrain
        (hypot : float -> float -> float) (self : RugosityIndex) (elev : grid)
        (cell_size : float) (pbar : nat) :
  (forall d c, hypot (- d)%float c = hypot d c) ->
  analyze hypot self (negate elev) cell_size pbar = analyze hypot self elev cell_size pbar.
Proof.
  intros Heven. unfold analyze. now rewrite (calculate_rugosity_negate hypot Heven).
Qed.

Lemma analysis_of_negated_terrain_witness :
  let elev := [[0; 0; 0; 0; 0]; [0; 0; 0; 77; 0]; [0; 0; 0; 0; 0];
               [0; 0; 0; 0; 0]; [0; 0; 0; 0; 0]]%float in
  analyze hypot_ref (chunked 3 (2, 3)) (negate elev) 36%float 0
  = analyze hypot_ref (chunked 3 (2, 3)) elev 36%float 0.
Proof.
  intros elev. apply (analysis_of_negated_terrain hypot_ref (chunked 3 (2, 3)) elev).
  exact hypot_ref_even.
Defined.

(** ** The progress bar *)

(** A callback that advances the counter by [c] whenever it returns. *)
Lemma traverse_ticks {A B} (f : A -> nat -> result B * nat) (c : nat)
      (l : list A) (n n' : nat) (bs : list B) :
  (forall a n b n1, f a n = (Ok b, n1) -> n1 = c + n) ->
  traverse f l n = (Ok bs, n') -> n' = c * length l + n.
Proof.
  intros Hf. revert n n' bs. induction l as [|a l IH]; intros n n' bs; simpl.
  - intros [= <- <-]. lia.
  - destruct (f a n) as [[b|e] n1] eqn:Ea; [|discriminate].
    destruct (traverse f l n1) as [[bs'|e] n2] eqn:El; [|discriminate].
    intros [= <- <-]. apply Hf in Ea. apply IH in El. lia.
Qed.

(** X5: a sequential run that returns has advanced the progress bar by
    exactly [Z.shape[0] * Z.shape[1]], the total the bar was created
    with: one tick per cell, none missed, none counted twice. *)
Theorem progress_reaches_total
        (hypot : float -> float -> float) (self : RugosityIndex) (elev : grid)
        (cell_size : float) (pbar : nat) (out : grid) :
  chunk_processing self = false ->
  returned (calculate_rugosity hypot self elev cell_size pbar) = Some out ->
  snd (calculate_rugosity hypot self elev cell_size pbar)
  = nrows elev * ncols elev + pbar.
Proof.
  intros Hseq. unfold returned, calculate_rugosity. rewrite Hseq.
  destruct ((window_size self mod 2 =? 0)%Z || (window_size self <? 3)%Z);
    [discriminate|].
  destruct (generic_filter _ _ elev pbar) as [[result|e] pbar'] eqn:E; [|discriminate].
  intros _. cbn [snd]. unfold generic_filter in E.
  apply (traverse_ticks _ (ncols elev)) in E.
  - rewrite length_seq in E. lia.
  - intros i n row n1 Erow.
    apply (traverse_ticks _ 1) in Erow.
    + rewrite length_seq in Erow. lia.
    + intros j m b m1. destruct (rugosity_filter _ _ _ _); intros [= _ <-]; lia.
Qed.

Lemma progress_reaches_total_witness :
  snd (calculate_rugosity hypot_ref (sequential 3) [[1; 2; 3]; [4; 5; 6]]%float 1%float 10)
  = nrows [[1; 2; 3]; [4; 5; 6]]%float * ncols [[1; 2; 3]; [4; 5; 6]]%float + 10.
Proof.
  eapply (progress_reaches_total hypot_ref (sequential 3) _ 1%float 10).
  - reflexivity.
  - vm_compute. reflexivity.
Defined.

(** ** Cell sizes whose planar area is not defined *)

Lemma zero_not_infinity (x : float) : is_zero x = true -> is_infinity x = false.
Proof.
  unfold is_zero, is_infinity. rewrite !FloatAxioms.eqb_spec, abs_spec.
  change (Prim2SF 0) with (S754_zero false).
  change (Prim2SF infinity) with (S754_infinity false).
  destruct (Prim2SF x) as [s|s| |s m e]; try destruct s; try discriminate; reflexivity.
Qed.

Lemma rugosity_filter_planar_error
      (hypot : float -> float -> float) (W : Z) (cell_size : float) (values : list float) :
  planar_defined W cell_size = false ->
  rugosity_filter hypot W cell_size values = Raise (planar_error W cell_size).
Proof.
  unfold planar_defined, planar_error, rugosity_filter, planar_area, py.pow2, py.truediv,
    np.square.
  set (x := (np.float_of_int (W - 1) * cell_size)%float).
  intros H.
  destruct (is_zero (x * x)%float) eqn:Hzero.
  - rewrite (zero_not_infinity _ Hzero), andb_false_r. simpl. now rewrite Hzero.
  - rewrite andb_true_r in H. apply negb_false_iff in H. now rewrite H.
Qed.

(** X6: a cell size whose planar area [((W - 1) * cell_size) ** 2]
    overflows or is zero is not rejected up front, and no grid is
    returned.  On a grid that is not empty, the sequential run raises from
    its first window, after exactly one tick of the progress bar:
    [ZeroDivisionError] when the planar area is zero and [OverflowError]
    otherwise, never the window-size error.  The chunked run does not
    reach a block: dask's dtype inference calls the filter once, on a
    window of ones, and turns its exception into dask's own error; the
    progress count is left alone. *)
Theorem undefined_planar_area_raises
        (hypot : float -> float -> float) (W : Z) (elev : grid) (cell_size : float)
        (R C : nat) (pbar : nat) :
  valid_window W -> rect R C elev -> 0 < R -> 0 < C ->
  planar_defined W cell_size = false ->
  analyze hypot (sequential W) elev cell_size pbar
  = (Raise (planar_error W cell_size), S pbar)
  /\ forall tile, valid_tile tile -> Z.to_nat (W / 2) <= R -> Z.to_nat (W / 2) <= C ->
       analyze hypot (chunked W tile) elev cell_size pbar
       = (Raise DtypeInferenceError, pbar).
Proof.
  intros HW Hx HR HC Hplanar.
  pose proof (fun values => rugosity_filter_planar_error hypot W cell_size values Hplanar)
    as He.
  split.
  - unfold analyze.
    rewrite (calculate_rugosity_sequential_raises hypot (sequential W) elev cell_size
               HW (planar_error W cell_size)); trivial.
    + now rewrite (rect_nrows _ _ _ Hx).
    + now rewrite (rect_ncols _ _ _ Hx).
  - intros [ch cw] [Hch Hcw] HdR HdC. unfold analyze.
    now rewrite (calculate_rugosity_chunked_raises hypot (chunked W (ch, cw)) elev
                   cell_size HW (planar_error W cell_size) R C).
Qed.

Lemma undefined_planar_area_raises_witness :
  analyze hypot_ref (sequential 3) (flat_grid 4 5 10%float) 0%float 7
  = (Raise (planar_error 3 0%float), 8)
  /\ forall tile, valid_tile tile -> Z.to_nat (3 / 2) <= 4 -> Z.to_nat (3 / 2) <= 5 ->
       analyze hypot_ref (chunked 3 tile) (flat_grid 4 5 10%float) 0%float 7
       = (Raise DtypeInferenceError, 7).
Proof.
  apply (undefined_planar_area_raises hypot_ref 3 (flat_grid 4 5 10%float) 0%float 4 5 7).
  - split; [reflexivity | lia].
  - apply rect_flat_grid.
  - lia.
  - lia.
  - reflexivity.
Defined.

(** ** The cells that hold a number *)

Lemma window_nearest_at (R C depth : nat) (x : grid) (i j : nat) :
  rect R C x -> 0 < R -> i + depth < R -> j + depth < C ->
  window_nearest x (2 * depth + 1) i j = window_at x depth i j.
Proof.
  intros Hx HR Hi Hj. unfold window_nearest, window_at.
  rewrite (rect_nrows _ _ _ Hx), (rect_ncols _ _ _ Hx) by lia.
  rewrite half_odd, !flat_map_concat_map. f_equal.
  apply map_ext_in. intros a Ha. apply map_ext_in. intros b Hb.
  apply in_seq in Ha, Hb. unfold nearest. f_equal; lia.
Qed.

Lemma not_in_fringe (R C f i j : nat) :
  in_fringe R C f i j = false <-> f <= i < R - f /\ f <= j < C - f.
Proof.
  unfold in_fringe. rewrite !orb_false_iff, !Nat.ltb_ge, !Nat.leb_gt. lia.
Qed.

(** X7: a cell outside the fringe holds the ratio of the window of actual
    samples around it, rows [i - W/2 .. i + W/2] and columns
    [j - W/2 .. j + W/2]: no padded sample, of either policy, reaches a
    value that the analysis reports, with either processor and any chunk
    shape. *)
Theorem reported_cells_read_no_padding
        (hypot : float -> float -> float) (self : RugosityIndex) (elev : grid)
        (cell_size : float) (R C : nat) (pbar : nat) :
  valid_window (window_size self) -> rect R C elev ->
  (chunk_processing self = true ->
   Z.to_nat (window_size self / 2) <= R /\ Z.to_nat (window_size self / 2) <= C
   /\ valid_tile (chunksize self)) ->
  planar_defined (window_size self) cell_size = true ->
  exists out,
    returned (analyze hypot self elev cell_size pbar) = Some out
    /\ forall i j, i < R -> j < C ->
         in_fringe R C (Z.to_nat (window_size self / 2 + 1)) i j = false ->
         get out i j
         = ratio hypot (window_size self) cell_size
             (window_at elev (Z.to_nat (window_size self / 2)) i j).
Proof.
  intros HW Hx Hchunk Hplanar.
  destruct (analyze_cells hypot self elev cell_size R C pbar HW Hx Hchunk Hplanar)
    as [out [Hout Hcells]].
  exists out. split; trivial. intros i j Hi Hj Hfr.
  destruct (Hcells i j Hi Hj Hfr) as [values [-> Hvalues]].
  pose proof Hfr as Hin. rewrite (fringe_width _ HW) in Hin.
  set (depth := Z.to_nat (window_size self / 2)) in *.
  pose proof Hin as Hcell. apply not_in_fringe in Hcell.
  assert (Hat : window_nearest elev (2 * depth + 1) i j = window_at elev depth i j)
    by (apply (window_nearest_at R C); trivial; lia).
  destruct Hvalues as [[_ ->]|[_ ->]].
  - now rewrite Hat.
  - rewrite <- Hat. f_equal. symmetry.
    apply (window_interior R C); trivial. lia.
Qed.

Lemma reported_cells_read_no_padding_witness :
  exists out,
    returned (analyze hypot_ref (chunked 5 (4, 4)) (flat_grid 8 9 10%float) 1%float 0)
    = Some out
    /\ forall i j, i < 8 -> j < 9 ->
         in_fringe 8 9 (Z.to_nat (5 / 2 + 1)) i j = false ->
         get out i j
         = ratio hypot_ref 5 1%float (window_at (flat_grid 8 9 10%float) (Z.to_nat (5 / 2)) i j).
Proof.
  apply (reported_cells_read_no_padding hypot_ref (chunked 5 (4, 4)) _ 1%float 8 9 0).
  - split; [reflexivity | cbn; lia].
  - apply rect_flat_grid.
  - intros _. vm_compute. repeat split; lia.
  - reflexivity.
Defined.

(** X8: the smallest grid that yields a number.  With a window of size
    [W], a grid with at most [W + 1] rows or at most [W + 1] columns comes
    back entirely NaN, whatever its samples and the cell size; a grid of
    at least [W + 2] rows and columns comes back with a number in it, when
    the cell size is a number whose planar area is positive and finite. *)
Theorem smallest_grid_with_a_number
        (hypot : float -> float -> float) (self : RugosityIndex) (elev : grid)
        (cell_size : float) (R C : nat) (pbar : nat) :
  valid_window (window_size self) -> rect R C elev ->
  (chunk_processing self = true ->
   Z.to_nat (window_size self / 2) <= R /\ Z.to_nat (window_size self / 2) <= C
   /\ valid_tile (chunksize self)) ->
  (forall out,
      returned (analyze hypot self elev cell_size pbar) = Some out ->
      R <= Z.to_nat (window_size self) + 1 \/ C <= Z.to_nat (window_size self) + 1 ->
      forall i j, i < R -> j < C -> np.isnan (get out i j) = true)
  /\ (Z.to_nat (window_size self) + 2 <= R -> Z.to_nat (window_size self) + 2 <= C ->
      np.isnan cell_size = false ->
      (0 <? planar_area (window_size self) cell_size)%float = true ->
      (planar_area (window_size self) cell_size <? infinity)%float = true ->
      exists out,
        returned (analyze hypot self elev cell_size pbar) = Some out
        /\ exists i j, i < R /\ j < C /\ np.isnan (get out i j) = false).
Proof.
  intros HW Hx Hchunk.
  pose proof (window_size_odd _ HW) as Hodd.
  pose proof (fringe_width _ HW) as Hf.
  set (depth := Z.to_nat (window_size self / 2)) in *.
  split.
  - intros out. unfold returned, analyze.
    destruct (calculate_rugosity hypot self elev cell_size pbar) as [[result|e] p] eqn:E;
      [|discriminate].
    cbn [fst]. intros [= <-] Hsmall i j Hi Hj.
    pose proof (calculate_rugosity_shape hypot self elev cell_size R C pbar p result
                  HW Hx Hchunk E) as Hshape.
    rewrite get_invalidate_fringe.
    rewrite (rect_nrows _ _ _ Hshape), (rect_ncols _ _ _ Hshape) by lia.
    destruct (in_fringe R C (Z.to_nat (window_size self / 2 + 1)) i j) eqn:Hfr;
      [reflexivity|].
    apply not_in_fringe in Hfr. lia.
  - intros HR HC Hcell Hpos Hfin.
    destruct (analyze_cells hypot self elev cell_size R C pbar HW Hx Hchunk
                (planar_defined_pos_finite _ _ Hpos Hfin)) as [out [Hout Hcells]].
    exists out. split; trivial.
    exists (depth + 1), (depth + 1).
    assert (Hfr : in_fringe R C (Z.to_nat (window_size self / 2 + 1))
                            (depth + 1) (depth + 1) = false)
      by (apply not_in_fringe; lia).
    split; [lia|]. split; [lia|].
    destruct (Hcells (depth + 1) (depth + 1) ltac:(lia) ltac:(lia) Hfr) as [values [-> _]].
    apply nonneg_not_nan. now apply ratio_nonneg.
Qed.

Lemma smallest_grid_with_a_number_witness :
  (forall out,
      returned (analyze hypot_ref (sequential 3) (flat_grid 5 5 10%float) 1%float 0)
      = Some out ->
      5 <= Z.to_nat 3 + 1 \/ 5 <= Z.to_nat 3 + 1 ->
      forall i j, i < 5 -> j < 5 -> np.isnan (get out i j) = true)
  /\ (Z.to_nat 3 + 2 <= 5 -> Z.to_nat 3 + 2 <= 5 ->
      np.isnan 1%float = false ->
      (0 <? planar_area 3 1)%float = true ->
      (planar_area 3 1 <? infinity)%float = true ->
      exists out,
        returned (analyze hypot_ref (sequential 3) (flat_grid 5 5 10%float) 1%float 0)
        = Some out
        /\ exists i j, i < 5 /\ j < 5 /\ np.isnan (get out i j) = false).
Proof.
  apply (smallest_grid_with_a_number hypot_ref (sequential 3) _ 1%float 5 5 0).
  - split; [reflexivity | cbn; lia].
  - apply rect_flat_grid.
  - discriminate.
Defined.

(* ================================================================== *)
(** * Part IX: units, the object and its export                       *)
(* ================================================================== *)

(** ** Units *)

Lemma prefix_app (a b s : String.string) :
  String.prefix (String.append a b) s = true -> String.prefix a s = true.
Proof.
  revert s. induction a as [|c a IH]; intros s; simpl.
  - now destruct s.
  - destruct s as [|c' s]; simpl; [discriminate|].
    destruct (Ascii.ascii_dec c c'); [apply IH | discriminate].
Qed.

(** A string that holds [a ++ b] holds [a]. *)
Lemma contains_app (a b s : String.string) :
  str.contains (String.append a b) s = true -> str.contains a s = true.
Proof.
  induction s as [|c s IH]; cbn [str.contains]; rewrite !orb_true_iff.
  - intros [H|H]; [|discriminate]. left. now apply prefix_app in H.
  - intros [H|H]; [left; now apply prefix_app in H | right; now apply IH].
Qed.

(** The three words for metres come down to two: a name with "meters" in
    it has "meter" in it. *)
Lemma names_metres (Zunit : String.string) :
  method.names Zunit ["metre"; "meter"; "meters"]%string
  = str.contains "metre"%string (str.lower Zunit)
    || str.contains "meter"%string (str.lower Zunit).
Proof.
  unfold method.names. cbn [existsb]. rewrite orb_false_r.
  destruct (str.contains "metre"%string _); trivial. cbn [orb].
  destruct (str.contains "meter"%string _) eqn:Hmeter; trivial. cbn [orb].
  destruct (str.contains "meters"%string _) eqn:Hmeters; trivial.
  apply (contains_app "meter"%string "s"%string) in Hmeters. congruence.
Qed.

Lemma names_split (Zunit : String.string) (a b : list String.string) :
  method.names Zunit (a ++ b) = method.names Zunit a || method.names Zunit b.
Proof. apply existsb_app. Qed.

(** X9: a raster whose unit name holds none of "metre", "meter", "foot",
    "feet", "ft" (letter case apart) is refused with the unit error
    before anything is computed: the progress bar does not move, and the
    window size is not even checked.  The object has by then taken the new
    arguments, metadata and elevations, and keeps the result and the
    window size in metres it had. *)
Theorem unknown_unit_is_refused
        (hypot : float -> float -> float) (self : instance.t)
        (input_dir : String.string) (src : rasterio.DatasetReader)
        (chunk_processing : bool) (chunksize : nat * nat) (pbar : nat) :
  method.names (rasterio.linear_units src) ["metre"; "meter"; "foot"; "feet"; "ft"]%string
  = false ->
  exists self',
    method.analyze hypot self input_dir src chunk_processing chunksize pbar
    = (method.Throw method.UnitError, self', pbar)
    /\ instance.meta self' = Some (rasterio.meta src)
    /\ instance.Z self' = Some (rasterio.read1 src)
    /\ instance.input_dir self' = Some input_dir
    /\ instance.result self' = instance.result self
    /\ instance.window_size_m self' = instance.window_size_m self.
Proof.
  intros Hnone.
  change ["metre"; "meter"; "foot"; "feet"; "ft"]%string
    with (["metre"; "meter"] ++ ["foot"; "feet"; "ft"])%string%list in Hnone.
  rewrite names_split in Hnone. apply orb_false_iff in Hnone as [Hm Hf].
  unfold method.analyze. rewrite names_metres.
  unfold method.names in Hm. cbn [existsb] in Hm. rewrite orb_false_r in Hm.
  rewrite Hm, Hf. eexists. split; [reflexivity|]. repeat split.
Qed.

Lemma unknown_unit_is_refused_witness :
  let src := {| rasterio.meta := [("driver", PyStr "GTiff")]%string;
                rasterio.read1 := [[1; 2]; [3; 4]]%float;
                rasterio.linear_units := "degree"%string;
                rasterio.transform0 := 1%float |} in
  exists self',
    method.analyze hypot_ref (method.init 4) "dem.tif"%string src false (512, 512) 0
    = (method.Throw method.UnitError, self', 0)
    /\ instance.meta self' = Some (rasterio.meta src)
    /\ instance.Z self' = Some (rasterio.read1 src)
    /\ instance.input_dir self' = Some "dem.tif"%string
    /\ instance.result self' = instance.result (method.init 4)
    /\ instance.window_size_m self' = instance.window_size_m (method.init 4).
Proof.
  intros src.
  apply (unknown_unit_is_refused hypot_ref (method.init 4) "dem.tif"%string src
           false (512, 512) 0).
  reflexivity.
Defined.

(** X10: a raster whose unit name holds "metre" or "meter" (letter case
    apart) is analysed as it is, even if the name also holds a word for
    feet: the elevations returned are the band read, the rugosity and the
    progress count are those of the computation on the band with the
    raster's cell size, and the window size in metres is the cell size
    times the window size. *)
Theorem metre_units_are_not_converted
        (hypot : float -> float -> float) (self : instance.t)
        (input_dir : String.string) (src : rasterio.DatasetReader)
        (chunk_processing : bool) (chunksize : nat * nat) (pbar : nat) :
  str.contains "metre"%string (str.lower (rasterio.linear_units src)) = true
  \/ str.contains "meter"%string (str.lower (rasterio.linear_units src)) = true ->
  let attributes := {| window_size := instance.window_size self;
                       chunk_processing := chunk_processing;
                       chunksize := chunksize |} in
  let computation :=
    analyze hypot attributes (rasterio.read1 src) (rasterio.transform0 src) pbar in
  let run := method.analyze hypot self input_dir src chunk_processing chunksize pbar in
  fst (fst run)
  = match fst computation with
    | Ok result =>
        method.Return
          (rasterio.read1 src, result, rasterio.meta src,
           (rasterio.transform0 src * np.float_of_int (instance.window_size self))%float)
    | Raise e => method.Throw (method.Computation e)
    end
  /\ snd run = snd computation
  /\ instance.Z (snd (fst run)) = Some (rasterio.read1 src).
Proof.
  intros Hmetre attributes computation run.
  assert (Hnames : method.names (rasterio.linear_units src)
                                ["metre"; "meter"; "meters"]%string = true).
  { rewrite names_metres. apply orb_true_iff. exact Hmetre. }
  unfold run, computation, attributes, method.analyze. rewrite Hnames.
  cbv zeta. cbn [instance.window_size method.set_Z method.set_meta method.set_arguments].
  match goal with
  | |- context [analyze ?h ?a ?z ?g ?p] =>
      destruct (analyze h a z g p) as [[result|e] pbar']
  end; repeat split.
Qed.

Lemma metre_units_are_not_converted_witness :
  let src := {| rasterio.meta := [("driver", PyStr "GTiff")]%string;
                rasterio.read1 := flat_grid 7 7 10%float;
                rasterio.linear_units := "Metre (not feet)"%string;
                rasterio.transform0 := 1%float |} in
  let self := method.init 3 in
  let attributes := {| window_size := instance.window_size self;
                       chunk_processing := true;
                       chunksize := (4, 4) |} in
  let computation :=
    analyze hypot_ref attributes (rasterio.read1 src) (rasterio.transform0 src) 0 in
  let run := method.analyze hypot_ref self "dem.tif"%string src true (4, 4) 0 in
  fst (fst run)
  = match fst computation with
    | Ok result =>
        method.Return
          (rasterio.read1 src, result, rasterio.meta src,
           (rasterio.transform0 src * np.float_of_int (instance.window_size self))%float)
    | Raise e => method.Throw (method.Computation e)
    end
  /\ snd run = snd computation
  /\ instance.Z (snd (fst run)) = Some (rasterio.read1 src).
Proof.
  intros src self.
  apply (metre_units_are_not_converted hypot_ref self "dem.tif"%string src true (4, 4) 0).
  left. reflexivity.
Defined.

(** X11: a raster whose unit name holds "foot", "feet" or "ft" and
    neither "metre" nor "meter" is converted before it is analysed: the
    elevations and the cell size are multiplied by one and the same
    factor, the US survey foot ([1200/3937]) when the name holds "us" or
    "united states" anywhere, the international foot ([0.3048])
    otherwise.  The elevations returned and kept in the object are the
    converted ones, and the window size in metres is the converted cell
    size times the window size. *)
Theorem feet_units_are_converted
        (hypot : float -> float -> float) (self : instance.t)
        (input_dir : String.string) (src : rasterio.DatasetReader)
        (chunk_processing : bool) (chunksize : nat * nat) (pbar : nat) :
  str.contains "metre"%string (str.lower (rasterio.linear_units src)) = false ->
  str.contains "meter"%string (str.lower (rasterio.linear_units src)) = false ->
  method.names (rasterio.linear_units src) ["foot"; "feet"; "ft"]%string = true ->
  let factor :=
    if method.names (rasterio.linear_units src) ["us"; "united states"]%string
    then instance.ft2mUS self else instance.ft2mInt self in
  let Z := scale factor (rasterio.read1 src) in
  let gridsize := (rasterio.transform0 src * factor)%float in
  let attributes := {| window_size := instance.window_size self;
                       chunk_processing := chunk_processing;
                       chunksize := chunksize |} in
  let computation := analyze hypot attributes Z gridsize pbar in
  let run := method.analyze hypot self input_dir src chunk_processing chunksize pbar in
  fst (fst run)
  = match fst computation with
    | Ok result =>
        method.Return
          (Z, result, rasterio.meta src,
           (gridsize * np.float_of_int (instance.window_size self))%float)
    | Raise e => method.Throw (method.Computation e)
    end
  /\ snd run = snd computation
  /\ instance.Z (snd (fst run)) = Some Z.
Proof.
  intros Hmetre Hmeter Hfeet factor Z gridsize attributes computation run.
  unfold run, method.analyze. rewrite names_metres, Hmetre, Hmeter, Hfeet.
  cbn [orb]. unfold computation, attributes, gridsize, Z, factor.
  destruct (method.names (rasterio.linear_units src) ["us"; "united states"]%string);
    cbv zeta; cbn [instance.window_size instance.ft2mUS instance.ft2mInt method.set_Z
                   method.set_meta method.set_arguments];
    match goal with
    | |- context [analyze ?h ?a ?z ?g ?p] =>
        destruct (analyze h a z g p) as [[result|e] pbar']
    end; repeat split.
Qed.

Lemma feet_units_are_converted_witness :
  let src := {| rasterio.meta := [("driver", PyStr "GTiff")]%string;
                rasterio.read1 := flat_grid 7 7 10%float;
                rasterio.linear_units := "US survey foot"%string;
                rasterio.transform0 := 3%float |} in
  let self := method.init 3 in
  let factor :=
    if method.names (rasterio.linear_units src) ["us"; "united states"]%string
    then instance.ft2mUS self else instance.ft2mInt self in
  let Z := scale factor (rasterio.read1 src) in
  let gridsize := (rasterio.transform0 src * factor)%float in
  let attributes := {| window_size := instance.window_size self;
                       chunk_processing := false;
                       chunksize := (512, 512) |} in
  let computation := analyze hypot_ref attributes Z gridsize 0 in
  let run := method.analyze hypot_ref self "dem.tif"%string src false (512, 512) 0 in
  fst (fst run)
  = match fst computation with
    | Ok result =>
        method.Return
          (Z, result, rasterio.meta src,
           (gridsize * np.float_of_int (instance.window_size self))%float)
    | Raise e => method.Throw (method.Computation e)
    end
  /\ snd run = snd computation
  /\ instance.Z (snd (fst run)) = Some Z.
Proof.
  intros src self.
  apply (feet_units_are_converted hypot_ref self "dem.tif"%string src false (512, 512) 0);
    reflexivity.
Defined.

(** ** The object *)

(** What [analyze] leaves in the object, by the way it ends. *)
Lemma analyze_state
      (hypot : float -> float -> float) (self : instance.t)
      (input_dir : String.string) (src : rasterio.DatasetReader)
      (chunk_processing : bool) (chunksize : nat * nat) (pbar : nat) :
  let run := method.analyze hypot self input_dir src chunk_processing chunksize pbar in
  let self' := snd (fst run) in
  instance.meta self' = Some (rasterio.meta src)
  /\ (exists Z, instance.Z self' = Some Z)
  /\ instance.window_size self' = instance.window_size self
  /\ match fst (fst run) with
     | method.Return (Z, result, meta, window_size_m) =>
         instance.result self' = Some result
         /\ meta = rasterio.meta src
         /\ instance.Z self' = Some Z
         /\ instance.window_size_m self' = Some window_size_m
     | method.Throw _ =>
         instance.result self' = instance.result self
         /\ instance.window_size_m self' = instance.window_size_m self
     end.
Proof.
  unfold method.analyze.
  destruct (method.names _ ["metre"; "meter"; "meters"]%string);
    [| destruct (method.names _ ["foot"; "feet"; "ft"]%string);
       [destruct (method.names _ ["us"; "united states"]%string)|] ];
    cbv zeta;
    try match goal with
      | |- context [analyze ?h ?a ?z ?g ?p] =>
          destruct (analyze h a z g p) as [[result|e] pbar']
      end;
    cbn; repeat split; eauto.
Qed.

Lemma dict_get_set (key : String.string) (v : pyvalue) (d : dict) :
  dict_get key (dict_set key v d) = Some v.
Proof.
  induction d as [|[k v'] d IH]; simpl.
  - now rewrite String.eqb_refl.
  - destruct (String.eqb key k) eqn:E; simpl.
    + now rewrite String.eqb_refl.
    + now rewrite E.
Qed.

Lemma dict_get_set_other (key key' : String.string) (v : pyvalue) (d : dict) :
  key' <> key -> dict_get key' (dict_set key v d) = dict_get key' d.
Proof.
  intros Hne. apply String.eqb_neq in Hne.
  induction d as [|[k v'] d IH]; simpl.
  - now rewrite Hne.
  - destruct (String.eqb key k) eqn:E; simpl.
    + apply String.eqb_eq in E. subst k. now rewrite Hne.
    + now rewrite IH.
Qed.

(** The cast to binary32 makes a NaN of a NaN and of nothing else. *)
Lemma float32_nan (x : float) : rasterio.float32 x = S754_nan <-> np.isnan x = true.
Proof.
  unfold np.isnan. rewrite is_nan_SF. unfold rasterio.float32.
  destruct (Prim2SF x) as [s|s| |s m e]; split; try congruence; try discriminate.
  intros H. pose proof (binary_round_sign 24 128 s m e) as Hs.
  rewrite H in Hs. discriminate Hs.
Qed.

Lemma get32_astype (x : grid) (i j : nat) :
  get32 (rasterio.astype_float32 x) i j = rasterio.float32 (get x i j).
Proof.
  unfold get32, get, rasterio.astype_float32.
  change (@nil spec_float) with (map rasterio.float32 []).
  rewrite (map_nth (map rasterio.float32) x [] i).
  exact (map_nth rasterio.float32 (nth i x []) np.nan j).
Qed.

(** X12: exporting after an analysis that returned.  [export_result]
    returns; it has opened the output with the raster's metadata in which
    [dtype] is now ['float32'] and [count] is 1 (and the two compression
    keys are set; every other key is as the raster had it), written one
    band, closed the dataset and printed the base name of the path.  The
    band is the rugosity grid just returned, row for row and cell for
    cell, each cell rounded to binary32; its NaN cells are exactly those of
    that grid. *)
Theorem export_after_analysis
        (hypot : float -> float -> float) (self : instance.t)
        (input_dir : String.string) (src : rasterio.DatasetReader)
        (chunk_processing : bool) (chunksize : nat * nat) (pbar : nat)
        (output_dir : String.string)
        (Z result : grid) (meta : dict) (window_size_m : float) :
  let run := method.analyze hypot self input_dir src chunk_processing chunksize pbar in
  fst (fst run) = method.Return (Z, result, meta, window_size_m) ->
  let profile := method.update_meta (rasterio.meta src) in
  let band := rasterio.astype_float32 result in
  method.export_result (snd (fst run)) output_dir
  = (method.Return tt,
     method.set_meta (snd (fst run)) (Some profile),
     [rasterio.OpenForWriting output_dir profile;
      rasterio.WriteBand band 1;
      rasterio.Close;
      rasterio.PrintLine (String.append "Processed result saved to "%string
                                        (str.basename output_dir))])
  /\ length band = nrows result
  /\ (forall i, length (nth i band []) = length (nth i result []))
  /\ (forall i j, get32 band i j = rasterio.float32 (get result i j))
  /\ (forall i j, get32 band i j = S754_nan <-> np.isnan (get result i j) = true)
  /\ dict_get "dtype"%string profile = Some (PyStr "float32"%string)
  /\ dict_get "count"%string profile = Some (PyInt 1)
  /\ forall key,
       ~ In key ["dtype"; "count"; "compress"; "bigtiff"]%string ->
       dict_get key profile = dict_get key (rasterio.meta src).
Proof.
  intros run Hrun profile band.
  pose proof (analyze_state hypot self input_dir src chunk_processing chunksize pbar)
    as (Hmeta & _ & _ & Hend).
  fold run in Hmeta, Hend. rewrite Hrun in Hend. destruct Hend as (Hresult & _ & _ & _).
  split; [|split; [|split; [|split; [|split; [|split; [|split]]]]]].
  - unfold method.export_result. rewrite Hmeta.
    cbv zeta. cbn [instance.result method.set_meta]. rewrite Hresult. reflexivity.
  - unfold band, rasterio.astype_float32, nrows. apply length_map.
  - intros i. unfold band, rasterio.astype_float32.
    change (@nil spec_float) with (map rasterio.float32 []).
    rewrite (map_nth (map rasterio.float32) result [] i). apply length_map.
  - intros i j. apply get32_astype.
  - intros i j. unfold band. rewrite get32_astype. apply float32_nan.
  - unfold profile, method.update_meta.
    rewrite !dict_get_set_other by discriminate. apply dict_get_set.
  - unfold profile, method.update_meta.
    rewrite !dict_get_set_other by discriminate. apply dict_get_set.
  - intros key Hkey. unfold profile, method.update_meta.
    rewrite !dict_get_set_other; trivial; intros ->; apply Hkey; simpl; auto.
Qed.

Lemma export_after_analysis_witness :
  let src := {| rasterio.meta := [("driver", PyStr "GTiff"); ("dtype", PyStr "float64");
                                  ("count", PyInt 1); ("crs", PyObject 0)]%string;
                rasterio.read1 := [[1; 2]; [3; 4]]%float;
                rasterio.linear_units := "metre"%string;
                rasterio.transform0 := 1%float |} in
  let result := [[nan; nan]; [nan; nan]]%float in
  let run := method.analyze hypot_ref (method.init 3) "dem.tif"%string src false (512, 512) 0 in
  let profile := method.update_meta (rasterio.meta src) in
  let band := rasterio.astype_float32 result in
  method.export_result (snd (fst run)) "out/rugosity.tif"%string
  = (method.Return tt,
     method.set_meta (snd (fst run)) (Some profile),
     [rasterio.OpenForWriting "out/rugosity.tif"%string profile;
      rasterio.WriteBand band 1;
      rasterio.Close;
      rasterio.PrintLine (String.append "Processed result saved to "%string
                                        (str.basename "out/rugosity.tif"%string))])
  /\ length band = nrows result
  /\ (forall i, length (nth i band []) = length (nth i result []))
  /\ (forall i j, get32 band i j = rasterio.float32 (get result i j))
  /\ (forall i j, get32 band i j = S754_nan <-> np.isnan (get result i j) = true)
  /\ dict_get "dtype"%string profile = Some (PyStr "float32"%string)
  /\ dict_get "count"%string profile = Some (PyInt 1)
  /\ forall key,
       ~ In key ["dtype"; "count"; "compress"; "bigtiff"]%string ->
       dict_get key profile = dict_get key (rasterio.meta src).
Proof.
  intros src result.
  apply (export_after_analysis hypot_ref (method.init 3) "dem.tif"%string src false
           (512, 512) 0 "out/rugosity.tif"%string
           [[1; 2]; [3; 4]]%float result (rasterio.meta src) 3%float).
  vm_compute. reflexivity.
Defined.

(** X13: an analysis that raises (unknown unit, invalid window size,
    planar area not defined, ...) replaces the metadata and the elevations
    of the object and leaves the result it held.  So [export_result] is
    not stopped by its metadata check: on an object that held no result
    it opens the output and fails on the missing result; on an object
    that held the result of an earlier analysis it writes that earlier
    result under the metadata of the new raster. *)
Theorem failed_analysis_keeps_old_result
        (hypot : float -> float -> float) (self : instance.t)
        (input_dir : String.string) (src : rasterio.DatasetReader)
        (chunk_processing : bool) (chunksize : nat * nat) (pbar : nat)
        (e : method.error) (output_dir : String.string) :
  let run := method.analyze hypot self input_dir src chunk_processing chunksize pbar in
  fst (fst run) = method.Throw e ->
  let self' := snd (fst run) in
  let profile := method.update_meta (rasterio.meta src) in
  instance.result self' = instance.result self
  /\ instance.meta self' = Some (rasterio.meta src)
  /\ method.export_result self' output_dir
     = match instance.result self with
       | None =>
           (method.Throw method.NoneTypeError,
            method.set_meta self' (Some profile),
            [rasterio.OpenForWriting output_dir profile; rasterio.Close])
       | Some old =>
           (method.Return tt,
            method.set_meta self' (Some profile),
            [rasterio.OpenForWriting output_dir profile;
             rasterio.WriteBand (rasterio.astype_float32 old) 1;
             rasterio.Close;
             rasterio.PrintLine (String.append "Processed result saved to "%string
                                           (str.basename output_dir))])
       end.
Proof.
  intros run Hrun self' profile.
  pose proof (analyze_state hypot self input_dir src chunk_processing chunksize pbar)
    as (Hmeta & _ & _ & Hend).
  fold run in Hmeta, Hend. rewrite Hrun in Hend. destruct Hend as (Hresult & _).
  fold self' in Hmeta, Hresult.
  split; [exact Hresult|]. split; [exact Hmeta|].
  unfold method.export_result. rewrite Hmeta.
  cbv zeta. cbn [instance.result method.set_meta]. rewrite Hresult.
  now destruct (instance.result self).
Qed.

Lemma failed_analysis_keeps_old_result_witness :
  let first := {| rasterio.meta := [("driver", PyStr "GTiff"); ("width", PyInt 2)]%string;
                  rasterio.read1 := [[1; 2]; [3; 4]]%float;
                  rasterio.linear_units := "metre"%string;
                  rasterio.transform0 := 1%float |} in
  let src := {| rasterio.meta := [("driver", PyStr "GTiff"); ("width", PyInt 3)]%string;
                rasterio.read1 := [[5; 6; 7]; [8; 9; 10]]%float;
                rasterio.linear_units := "degree"%string;
                rasterio.transform0 := 1%float |} in
  let self :=
    snd (fst (method.analyze hypot_ref (method.init 3) "a.tif"%string first
                             false (512, 512) 0)) in
  let run := method.analyze hypot_ref self "b.tif"%string src false (512, 512) 0 in
  let self' := snd (fst run) in
  let profile := method.update_meta (rasterio.meta src) in
  instance.result self' = instance.result self
  /\ instance.meta self' = Some (rasterio.meta src)
  /\ method.export_result self' "out.tif"%string
     = match instance.result self with
       | None =>
           (method.Throw method.NoneTypeError,
            method.set_meta self' (Some profile),
            [rasterio.OpenForWriting "out.tif"%string profile; rasterio.Close])
       | Some old =>
           (method.Return tt,
            method.set_meta self' (Some profile),
            [rasterio.OpenForWriting "out.tif"%string profile;
             rasterio.WriteBand (rasterio.astype_float32 old) 1;
             rasterio.Close;
             rasterio.PrintLine (String.append "Processed result saved to "%string
                                           (str.basename "out.tif"%string))])
       end.
Proof.
  intros first src self.
  apply (failed_analysis_keeps_old_result hypot_ref self "b.tif"%string src false
           (512, 512) 0 method.UnitError "out.tif"%string).
  vm_compute. reflexivity.
Defined.

(** ** The object through a sequence of calls *)

Lemma export_result_state (self : instance.t) (output_dir : String.string) :
  snd (fst (method.export_result self output_dir))
  = match instance.meta self with
    | None => self
    | Some meta => method.set_meta self (Some (method.update_meta meta))
    end.
Proof.
  unfold method.export_result. destruct (instance.meta self); trivial.
  cbv zeta. cbn [instance.result method.set_meta]. now destruct (instance.result self).
Qed.

Lemma export_result_outcome (self : instance.t) (output_dir : String.string) :
  fst (fst (method.export_result self output_dir))
  = match instance.meta self, instance.result self with
    | None, _ => method.Throw method.MetadataError
    | Some _, None => method.Throw method.NoneTypeError
    | Some _, Some _ => method.Return tt
    end.
Proof.
  unfold method.export_result. destruct (instance.meta self); trivial.
  cbv zeta. cbn [instance.result method.set_meta]. now destruct (instance.result self).
Qed.

Lemma after_call_state (hypot : float -> float -> float) (self : instance.t) (c : call) :
  let self' := after_call hypot self c in
  instance.window_size self' = instance.window_size self
  /\ (instance.meta self' = None <-> instance.meta self = None /\ opens_no_raster c)
  /\ ((instance.result self <> None ->
       instance.meta self <> None /\ instance.Z self <> None) ->
      instance.result self' <> None ->
      instance.meta self' <> None /\ instance.Z self' <> None).
Proof.
  destruct c as [input_dir [src|] chunk_processing chunksize | output_dir];
    cbn [after_call opens_no_raster].
  - pose proof (analyze_state hypot self input_dir src chunk_processing chunksize 0)
      as (Hmeta & [Z HZ] & HW & _).
    cbv zeta in *. rewrite Hmeta, HZ. split; [exact HW|]. split.
    + split; [discriminate|]. now intros [_ []].
    + intros _ _. split; discriminate.
  - cbn. split; [reflexivity|]. split; [tauto|trivial].
  - rewrite export_result_state.
    destruct (instance.meta self) as [meta|] eqn:Hmeta.
    + cbn [instance.window_size instance.meta instance.result instance.Z method.set_meta].
      split; [reflexivity|]. split.
      * split; [discriminate|]. intros [H _]. discriminate H.
      * intros Hinv Hres. split; [discriminate|]. now apply Hinv.
    + rewrite Hmeta. split; [reflexivity|]. split.
      * split; [tauto|reflexivity].
      * trivial.
Qed.

Lemma after_calls_state (hypot : float -> float -> float) (calls : list call) :
  forall self : instance.t,
  let self' := after_calls hypot self calls in
  instance.window_size self' = instance.window_size self
  /\ (instance.meta self' = None
      <-> instance.meta self = None /\ forall c, In c calls -> opens_no_raster c)
  /\ ((instance.result self <> None ->
       instance.meta self <> None /\ instance.Z self <> None) ->
      instance.result self' <> None ->
      instance.meta self' <> None /\ instance.Z self' <> None).
Proof.
  induction calls as [|c calls IH]; intros self; cbn [after_calls fold_left].
  - split; [reflexivity|]. split; [|trivial].
    split; [intros H; split; [exact H | intros c []] | now intros [H _]].
  - destruct (after_call_state hypot self c) as (HW1 & Hmeta1 & Hinv1).
    destruct (IH (after_call hypot self c)) as (HW & Hmeta & Hinv).
    unfold after_calls in *. cbv zeta in *.
    split; [congruence|]. split.
    + rewrite Hmeta, Hmeta1. split.
      * intros [[Hnone Hc] Hrest]. split; trivial.
        intros c' [<-|Hin]; [exact Hc | now apply Hrest].
      * intros [Hnone Hall]. split; [split; trivial; apply Hall; now left|].
        intros c' Hin. apply Hall. now right.
    + intros Hself. apply Hinv. now apply Hinv1.
Qed.

(** X14: the object through any sequence of calls of [analyze] and
    [export_result] after its creation, whether they returned or raised.
    The window size is the one it was created with.  [export_result]
    raises its metadata error exactly when no call of [analyze] has got
    as far as opening its raster (an [analyze] whose [rasterio.open]
    raises leaves the object without metadata).  An object that holds a
    result holds metadata and elevations; so [export_result] returns
    exactly when the object holds a result, and so does the check of
    [plot_result]. *)
Theorem object_through_calls
        (hypot : float -> float -> float) (W : Z) (calls : list call)
        (output_dir : String.string) :
  let self := after_calls hypot (method.init W) calls in
  instance.window_size self = W
  /\ (fst (fst (method.export_result self output_dir)) = method.Throw method.MetadataError
      <-> forall c, In c calls ->
            (exists o, c = ExportResult o)
            \/ (exists input_dir chunk_processing chunksize,
                  c = Analyze input_dir None chunk_processing chunksize))
  /\ (instance.result self <> None ->
      instance.meta self <> None /\ instance.Z self <> None)
  /\ (fst (fst (method.export_result self output_dir)) = method.Return tt
      <-> instance.result self <> None)
  /\ (method.plot_result_check self = method.Return tt
      <-> instance.result self <> None).
Proof.
  intros self.
  destruct (after_calls_state hypot calls (method.init W)) as (HW & Hmeta & Hinv).
  fold self in HW, Hmeta, Hinv. cbn [instance.window_size instance.meta instance.result
                                     method.init] in HW, Hmeta, Hinv.
  assert (Hholds : instance.result self <> None ->
                   instance.meta self <> None /\ instance.Z self <> None)
    by (apply Hinv; intros H; now contradiction H).
  assert (Hopens : forall c,
             opens_no_raster c
             <-> (exists o, c = ExportResult o)
                 \/ (exists input_dir chunk_processing chunksize,
                       c = Analyze input_dir None chunk_processing chunksize)).
  { intros [input_dir [src|] chunk_processing chunksize | o]; cbn; split.
    - intros [].
    - intros [[o Ho]|(d & p & k & Hc)]; discriminate.
    - intros _. right. eauto.
    - trivial.
    - intros _. left. eauto.
    - trivial. }
  split; [exact HW|]. split; [|split; [exact Hholds|split]].
  - rewrite export_result_outcome.
    transitivity (instance.meta self = None).
    + destruct (instance.meta self), (instance.result self); split; congruence.
    + rewrite Hmeta. split.
      * intros [_ H] c Hc. apply Hopens. now apply H.
      * intros H. split; trivial. intros c Hc. apply Hopens. now apply H.
  - rewrite export_result_outcome.
    destruct (instance.meta self) as [meta|] eqn:Em, (instance.result self) eqn:Er;
      split; try congruence; try discriminate.
    intros H. destruct (Hholds H) as [Hm _]. now contradiction Hm.
  - unfold method.plot_result_check.
    destruct (instance.Z self) eqn:EZ, (instance.result self) eqn:Er;
      split; try congruence; try discriminate.
    intros H. destruct (Hholds H) as [_ HZ]. now contradiction HZ.
Qed.

(** ** What an analysis reads of the object *)

Lemma analyze_constants
      (hypot : float -> float -> float) (self : instance.t)
      (input_dir : String.string) (src : rasterio.DatasetReader)
      (chunk_processing : bool) (chunksize : nat * nat) (pbar : nat) :
  let self' :=
    snd (fst (method.analyze hypot self input_dir src chunk_processing chunksize pbar)) in
  instance.window_size self' = instance.window_size self
  /\ instance.ft2mUS self' = instance.ft2mUS self
  /\ instance.ft2mInt self' = instance.ft2mInt self.
Proof.
  unfold method.analyze.
  destruct (method.names _ ["metre"; "meter"; "meters"]%string);
    [| destruct (method.names _ ["foot"; "feet"; "ft"]%string);
       [destruct (method.names _ ["us"; "united states"]%string)|] ];
    cbv zeta;
    try match goal with
      | |- context [analyze ?h ?a ?z ?g ?p] =>
          destruct (analyze h a z g p) as [[result|e] pbar']
      end;
    cbn; repeat split.
Qed.

Lemma after_calls_constants (hypot : float -> float -> float) (calls : list call) :
  forall self : instance.t,
  let self' := after_calls hypot self calls in
  instance.window_size self' = instance.window_size self
  /\ instance.ft2mUS self' = instance.ft2mUS self
  /\ instance.ft2mInt self' = instance.ft2mInt self.
Proof.
  induction calls as [|c calls IH]; intros self; cbn [after_calls fold_left].
  - repeat split.
  - destruct (IH (after_call hypot self c)) as (HW & HUS & HInt).
    unfold after_calls in *. cbv zeta in *. rewrite HW, HUS, HInt.
    destruct c as [input_dir [src|] chunk_processing chunksize | output_dir];
      cbn [after_call].
    + apply analyze_constants.
    + cbn. repeat split.
    + rewrite export_result_state. now destruct (instance.meta self).
Qed.

Lemma analyze_reads (hypot : float -> float -> float) (self self0 : instance.t)
      (input_dir : String.string) (src : rasterio.DatasetReader)
      (chunk_processing : bool) (chunksize : nat * nat) (pbar : nat) :
  instance.window_size self = instance.window_size self0 ->
  instance.ft2mUS self = instance.ft2mUS self0 ->
  instance.ft2mInt self = instance.ft2mInt self0 ->
  let run := method.analyze hypot self input_dir src chunk_processing chunksize pbar in
  let run0 := method.analyze hypot self0 input_dir src chunk_processing chunksize pbar in
  fst (fst run) = fst (fst run0) /\ snd run = snd run0.
Proof.
  destruct self as [US Int W Z1 r1 m1 d1 w1 p1 c1], self0 as [US0 Int0 W0 Z0 r0 m0 d0 w0 p0 c0].
  cbn [instance.window_size instance.ft2mUS instance.ft2mInt].
  intros -> -> ->. unfold method.analyze.
  destruct (method.names _ ["metre"; "meter"; "meters"]%string);
    [| destruct (method.names _ ["foot"; "feet"; "ft"]%string);
       [destruct (method.names _ ["us"; "united states"]%string)|] ];
    cbv zeta;
    cbn [instance.window_size instance.ft2mUS instance.ft2mInt method.set_Z
         method.set_meta method.set_arguments];
    try match goal with
      | |- context [analyze ?h ?a ?z ?g ?p] =>
          destruct (analyze h a z g p) as [[result|e] pbar']
      end;
    cbn; now split.
Qed.

(** X15: an analysis does not look at what the object went through.  On
    an object that has served any sequence of earlier [analyze] and
    [export_result] calls, returned or raised (an [analyze] that could not
    open its raster included), [analyze] returns or raises
    what it does on a newly created object of the same window size, with
    the same progress count: nothing of an earlier raster (elevations,
    result, metadata, chunk settings) reaches the new result. *)
Theorem analysis_ignores_history
        (hypot : float -> float -> float) (W : Z) (calls : list call)
        (input_dir : String.string) (src : rasterio.DatasetReader)
        (chunk_processing : bool) (chunksize : nat * nat) (pbar : nat) :
  let used := after_calls hypot (method.init W) calls in
  let run := method.analyze hypot used input_dir src chunk_processing chunksize pbar in
  let fresh :=
    method.analyze hypot (method.init W) input_dir src chunk_processing chunksize pbar in
  fst (fst run) = fst (fst fresh) /\ snd run = snd fresh.
Proof.
  intros used.
  destruct (after_calls_constants hypot calls (method.init W)) as (HW & HUS & HInt).
  now apply analyze_reads.
Qed.
